(** * Multi-modal vector store index: insertion and deletion orchestration

    Shallow embedding of [llama_index/indices/multi_modal/base.py]
    (class [MultiModalVectorStoreIndex]).

    The class orchestrates external collaborators: two embedding
    functions, the vector stores registered in a storage context, a
    document store, an index structure and an index store.  None of
    them is implemented in this file of the repository, so they are
    the fields of the interface [Backends]; the methods of the class
    are translated statement by statement into a monad that threads
    the mutable objects, propagates exceptions and records every
    call made to a collaborator. *)

From Stdlib Require Import Floats.PrimFloat.
From stdpp Require Import base option list strings gmap.

Set Default Proof Using "Type".

(** ** Nodes *)

(** An embedding is a [List[float]]; the class never inspects it. *)
Definition Embedding := list float.

(** [ImageNode] is a subclass of the text-carrying node with an
    optional image payload; every other node is a plain one. *)
Inductive NodeKind :=
| TextNode
| ImageNode (image : option string).

Record Node := mkNode {
  node_id : string;
  kind : NodeKind;
  text : string;
  ref_doc_id : option string;
  embedding : option Embedding
}.

(** [isinstance(node, ImageNode)] *)
Definition isinstance_ImageNode (node : Node) : bool :=
  match kind node with
  | ImageNode _ => true
  | TextNode => false
  end.

(** Truth value of a Python string: non-empty. *)
Definition truthy (s : string) : bool :=
  match s with
  | EmptyString => false
  | String _ _ => true
  end.

(** [node.copy()] builds a new object with the same fields. *)
Definition copy (node : Node) : Node := node.

(** [node.embedding = e] on a node object. *)
Definition set_embedding (e : option Embedding) (node : Node) : Node :=
  {| node_id := node_id node; kind := kind node; text := text node;
     ref_doc_id := ref_doc_id node; embedding := e |}.

(** ** Exceptions and results *)

Inductive Exn :=
| KeyError (key : string)
| AssertionError
| ValueError (msg : string)
| ReferenceError
| ExternalError (msg : string).

Inductive Result (A : Type) :=
| Ok (a : A)
| Raise (e : Exn).
Arguments Ok {A} a.
Arguments Raise {A} e.

Definition is_ok {A} (r : Result A) : bool :=
  match r with Ok _ => true | Raise _ => false end.

(** Keyword arguments passed through to a store's [add]. *)
Definition Kwargs := list (string * string).

(** What [get_ref_doc_info] returns for a known logical document. *)
Record RefDocInfo := mkRefDocInfo { node_ids : list string }.

(** ** The collaborators

    A vector store honours [add], [async_add], [delete] and the
    property [stores_text]; the latter is a constant of the store, so
    no operation changes it.  A mutating operation returns its result
    together with the new state of the object, which may have changed
    even when the operation raises. *)
Class Backends := {
  VectorStore : Type;
  stores_text : VectorStore -> bool;
  vs_add : VectorStore -> list Node -> Kwargs ->
           Result (list string) * VectorStore;
  vs_async_add : VectorStore -> list Node -> Kwargs ->
                 Result (list string) * VectorStore;
  vs_delete : VectorStore -> string -> Result unit * VectorStore;
  SimpleVectorStore : VectorStore;
  stores_text_add : forall s ns kw,
    stores_text (vs_add s ns kw).2 = stores_text s;
  stores_text_async_add : forall s ns kw,
    stores_text (vs_async_add s ns kw).2 = stores_text s;
  stores_text_delete : forall s i,
    stores_text (vs_delete s i).2 = stores_text s;

  DocStore : Type;
  ds_add_documents : DocStore -> list Node -> bool -> Result unit * DocStore;
  ds_get_ref_doc_info : DocStore -> string -> option RefDocInfo;
  ds_delete_ref_doc : DocStore -> string -> bool -> Result unit * DocStore;
  SimpleDocumentStore : DocStore;

  IndexStruct : Type;
  is_add_node : IndexStruct -> Node -> string -> Result unit * IndexStruct;
  is_delete : IndexStruct -> string -> Result unit * IndexStruct;

  IndexStore : Type;
  ixs_add_index_struct : IndexStore -> IndexStruct ->
                         Result unit * IndexStore;
  SimpleIndexStore : IndexStore;

  EmbedModel : Type;
  isinstance_MultiModalEmbedding : EmbedModel -> bool;
  embed_nodes : list Node -> EmbedModel -> bool ->
                Result (gmap string Embedding);
  async_embed_nodes : list Node -> EmbedModel -> bool ->
                      Result (gmap string Embedding);
  embed_image_nodes : list Node -> EmbedModel -> bool ->
                      Result (gmap string Embedding);
  async_embed_image_nodes : list Node -> EmbedModel -> bool ->
                            Result (gmap string Embedding);
  resolve_embed_model : string + EmbedModel -> Result EmbedModel
}.

(** Modelled from the spec: the constant [DEFAULT_VECTOR_STORE] is
    imported from [llama_index.vector_stores.simple], which is not part
    of the sources at hand; the spec calls it the default/primary name,
    distinct from the fixed image namespace. *)
Definition DEFAULT_VECTOR_STORE : string := "default"%string.

(** Class attribute [image_namespace]. *)
Definition image_namespace : string := "image"%string.

(** ** Calls, worlds and the monad *)

(** A blocking call and its awaited twin are distinguished in the
    record of calls. *)
Inductive Variant := Blocking | Awaited.

Section Model.
Context `{B : Backends}.

(** [EmbedType]: the name of an embedding model, or a model. *)
Definition EmbedType : Type := string + EmbedModel.

(** One entry per call to a collaborator, with the arguments the
    call received.  A vector store is identified by its address. *)
Inductive Call :=
| CallEmbed (v : Variant) (is_image : bool) (nodes : list Node)
| CallAdd (v : Variant) (store : nat) (nodes : list Node) (kw : Kwargs)
| CallDelete (store : nat) (id : string)
| CallAddNode (node : Node) (text_id : string)
| CallIndexDelete (node_id : string)
| CallAddDocuments (nodes : list Node) (allow_update : bool)
| CallGetRefDocInfo (ref_doc_id : string)
| CallDeleteRefDoc (ref_doc_id : string) (raise_error : bool)
| CallAddIndexStruct.

(** The storage context: a dictionary from namespace to vector store
    (a Python dict, so in insertion order), a document store and an
    index store. *)
Record StorageContext := mkStorageContext {
  vector_stores : list (string * nat);
  docstore : DocStore;
  index_store : IndexStore
}.

(** The mutable objects a call can reach.  Vector stores live in a
    heap, since one store object can be registered under several
    namespaces and is also held by the index itself.  The index
    structure is the object that the insertion receives as its
    argument and that the index holds as [_index_struct]; the document
    store of the storage context is the one the index holds as
    [_docstore]. *)
Record World := mkWorld {
  heap : list VectorStore;
  storage_context : StorageContext;
  index_struct : IndexStruct
}.

(** The attributes of the index object read by the methods. *)
Record Self := mkSelf {
  _image_embed_model : EmbedModel;
  _image_vector_store : nat;
  _embed_model : EmbedModel;
  _vector_store : nat;
  _store_nodes_override : bool
}.

Record Outcome (A : Type) := mkOutcome {
  result : Result A;
  world : World;
  calls : list Call
}.
Arguments mkOutcome {A} result world calls.
Arguments result {A} o.
Arguments world {A} o.
Arguments calls {A} o.

Definition M (A : Type) : Type := World -> Outcome A.

Definition ret {A} (a : A) : M A :=
  fun w => mkOutcome (Ok a) w [].

Definition raise {A} (e : Exn) : M A :=
  fun w => mkOutcome (Raise e) w [].

(** Sequencing: an exception ends the computation, keeping the
    mutations and the calls made so far. *)
Definition bind {A C} (m : M A) (f : A -> M C) : M C :=
  fun w =>
    let o := m w in
    match result o with
    | Ok a =>
        let o' := f a (world o) in
        mkOutcome (result o') (world o') (calls o ++ calls o')
    | Raise e => mkOutcome (Raise e) (world o) (calls o)
    end.

Notation "x <- m ;; k" := (bind m (fun x => k))
  (at level 100, m at next level, right associativity).
Notation "m ;;; k" := (bind m (fun _ => k))
  (at level 100, right associativity).

(** [for x in xs: body(x)] *)
Fixpoint for_each {A} (xs : list A) (body : A -> M unit) : M unit :=
  match xs with
  | [] => ret tt
  | x :: rest => body x ;;; for_each rest body
  end.

(** A loop that appends one result per element to a list. *)
Fixpoint collect {A C} (xs : list A) (body : A -> M C) : M (list C) :=
  match xs with
  | [] => ret []
  | x :: rest =>
      r <- body x ;;
      rs <- collect rest body ;;
      ret (r :: rs)
  end.

Definition log (c : Call) : M unit :=
  fun w => mkOutcome (Ok tt) w [c].

Definition get_world : M World :=
  fun w => mkOutcome (Ok w) w [].

Definition put_heap (h : list VectorStore) : M unit :=
  fun w => mkOutcome (Ok tt)
             (mkWorld h (storage_context w) (index_struct w)) [].

Definition put_storage_context (sc : StorageContext) : M unit :=
  fun w => mkOutcome (Ok tt) (mkWorld (heap w) sc (index_struct w)) [].

Definition put_index_struct (s : IndexStruct) : M unit :=
  fun w => mkOutcome (Ok tt) (mkWorld (heap w) (storage_context w) s) [].

Definition put_docstore (d : DocStore) : M unit :=
  w <- get_world ;;
  put_storage_context
    (mkStorageContext (vector_stores (storage_context w)) d
                      (index_store (storage_context w))).

Definition put_index_store (s : IndexStore) : M unit :=
  w <- get_world ;;
  put_storage_context
    (mkStorageContext (vector_stores (storage_context w))
                      (docstore (storage_context w)) s).

(** Lift the result of a pure collaborator. *)
Definition lift {A} (r : Result A) : M A :=
  match r with
  | Ok a => ret a
  | Raise e => raise e
  end.

(** [d[key]] on a dictionary kept in insertion order. *)
Fixpoint dict_get {V} (d : list (string * V)) (key : string) : option V :=
  match d with
  | [] => None
  | (k, v) :: rest => if String.eqb k key then Some v else dict_get rest key
  end.

(** [d[key] = v]: replaces in place, or appends a new key. *)
Fixpoint dict_set {V} (d : list (string * V)) (key : string) (v : V)
  : list (string * V) :=
  match d with
  | [] => [(key, v)]
  | (k, v0) :: rest =>
      if String.eqb k key then (k, v) :: rest
      else (k, v0) :: dict_set rest key v
  end.

(** [storage_context.vector_stores] *)
Definition get_vector_stores : M (list (string * nat)) :=
  w <- get_world ;;
  ret (vector_stores (storage_context w)).

(** [storage_context.vector_stores[namespace]] *)
Definition get_vector_store (namespace : string) : M nat :=
  registered <- get_vector_stores ;;
  match dict_get registered namespace with
  | Some l => ret l
  | None => raise (KeyError namespace)
  end.

(** The object behind a reference. *)
Definition deref (l : nat) : M VectorStore :=
  w <- get_world ;;
  match heap w !! l with
  | Some s => ret s
  | None => raise ReferenceError
  end.

(** A new vector-store object. *)
Definition alloc (s : VectorStore) : M nat :=
  w <- get_world ;;
  put_heap (heap w ++ [s]) ;;;
  ret (length (heap w)).

(** *** Calls to the collaborators *)

Definition sel_add (v : Variant) :=
  match v with Blocking => vs_add | Awaited => vs_async_add end.

(** [store.add(nodes, **kw)] and [await store.async_add(nodes, **kw)] *)
Definition call_add (v : Variant) (l : nat) (nodes : list Node)
    (kw : Kwargs) : M (list string) :=
  s <- deref l ;;
  log (CallAdd v l nodes kw) ;;;
  w <- get_world ;;
  let r := sel_add v s nodes kw in
  put_heap (<[l := r.2]> (heap w)) ;;;
  lift r.1.

(** [store.delete(id)] *)
Definition call_delete (l : nat) (id : string) : M unit :=
  s <- deref l ;;
  log (CallDelete l id) ;;;
  w <- get_world ;;
  let r := vs_delete s id in
  put_heap (<[l := r.2]> (heap w)) ;;;
  lift r.1.

(** [index_struct.add_node(node, text_id=new_id)] *)
Definition call_add_node (node : Node) (text_id : string) : M unit :=
  log (CallAddNode node text_id) ;;;
  w <- get_world ;;
  let r := is_add_node (index_struct w) node text_id in
  put_index_struct r.2 ;;;
  lift r.1.

(** [self._index_struct.delete(node_id)] *)
Definition call_index_delete (id : string) : M unit :=
  log (CallIndexDelete id) ;;;
  w <- get_world ;;
  let r := is_delete (index_struct w) id in
  put_index_struct r.2 ;;;
  lift r.1.

(** [self._docstore.add_documents(nodes, allow_update=...)] *)
Definition call_add_documents (nodes : list Node) (allow_update : bool)
  : M unit :=
  log (CallAddDocuments nodes allow_update) ;;;
  w <- get_world ;;
  let r := ds_add_documents (docstore (storage_context w)) nodes
                            allow_update in
  put_docstore r.2 ;;;
  lift r.1.

(** [self._docstore.get_ref_doc_info(ref_doc_id)] *)
Definition call_get_ref_doc_info (id : string) : M (option RefDocInfo) :=
  log (CallGetRefDocInfo id) ;;;
  w <- get_world ;;
  ret (ds_get_ref_doc_info (docstore (storage_context w)) id).

(** [self._docstore.delete_ref_doc(ref_doc_id, raise_error=...)] *)
Definition call_delete_ref_doc (id : string) (raise_error : bool) : M unit :=
  log (CallDeleteRefDoc id raise_error) ;;;
  w <- get_world ;;
  let r := ds_delete_ref_doc (docstore (storage_context w)) id raise_error in
  put_docstore r.2 ;;;
  lift r.1.

(** [self._storage_context.index_store.add_index_struct(self._index_struct)] *)
Definition call_add_index_struct : M unit :=
  log CallAddIndexStruct ;;;
  w <- get_world ;;
  let r := ixs_add_index_struct (index_store (storage_context w))
                                (index_struct w) in
  put_index_store r.2 ;;;
  lift r.1.

Definition sel_embed (v : Variant) (is_image : bool) :=
  match v, is_image with
  | Blocking, false => embed_nodes
  | Blocking, true => embed_image_nodes
  | Awaited, false => async_embed_nodes
  | Awaited, true => async_embed_image_nodes
  end.

(** The four embedding functions of [llama_index.indices.utils]. *)
Definition call_embed (v : Variant) (is_image : bool) (nodes : list Node)
    (embed_model : EmbedModel) (show_progress : bool)
  : M (gmap string Embedding) :=
  log (CallEmbed v is_image nodes) ;;;
  lift (sel_embed v is_image nodes embed_model show_progress).

(** ** The methods of [MultiModalVectorStoreIndex] *)

(** *** Construction *)

(** [storage_context.add_vector_store(store, namespace)], an
    assignment into the dictionary of vector stores. *)
Definition add_vector_store (vector_store : nat) (namespace : string)
  : M unit :=
  w <- get_world ;;
  put_storage_context
    (mkStorageContext
       (dict_set (vector_stores (storage_context w)) namespace vector_store)
       (docstore (storage_context w))
       (index_store (storage_context w))).

(** Modelled from the spec: [StorageContext.from_defaults] is not part
    of the sources at hand.  It builds a storage context whose default
    namespace holds the given vector store, or a new simple one, next
    to a new document store and a new index store. *)
Definition from_defaults (vector_store : option nat) : M StorageContext :=
  l <- match vector_store with
       | Some l => ret l
       | None => alloc SimpleVectorStore
       end ;;
  ret (mkStorageContext [(DEFAULT_VECTOR_STORE, l)]
                        SimpleDocumentStore SimpleIndexStore).

(** [assert cond] *)
Definition assert (cond : bool) : M unit :=
  if cond then ret tt else raise AssertionError.

Section Construction.

(** The constructor of the base class [VectorStoreIndex], which is not
    part of the sources at hand: it receives the attributes already
    set on the object and the arguments forwarded to it, and finishes
    the object. *)
Variable VectorStoreIndex__init__ :
  EmbedModel -> nat ->
  option (list Node) -> option IndexStruct -> option EmbedModel ->
  bool -> bool -> bool -> M Self.

Definition __init__ (nodes : option (list Node))
    (index_struct : option IndexStruct)
    (service_context : option EmbedModel)
    (storage_context : option StorageContext)
    (use_async store_nodes_override show_progress : bool)
    (image_vector_store : option nat)
    (image_embed_model : EmbedType) : M Self :=
  image_embed_model <- lift (resolve_embed_model image_embed_model) ;;
  assert (isinstance_MultiModalEmbedding image_embed_model) ;;;
  storage_context <-
    match storage_context with
    | Some sc => ret sc
    | None => from_defaults None
    end ;;
  put_storage_context storage_context ;;;
  match image_vector_store with
  | Some l => add_vector_store l image_namespace
  | None => ret tt
  end ;;;
  registered <- get_vector_stores ;;
  match dict_get registered image_namespace with
  | Some _ => ret tt
  | None =>
      l <- alloc SimpleVectorStore ;;
      add_vector_store l image_namespace
  end ;;;
  _image_vector_store <- get_vector_store image_namespace ;;
  VectorStoreIndex__init__ image_embed_model _image_vector_store
    nodes index_struct service_context
    show_progress use_async store_nodes_override.

Definition from_vector_store (vector_store : nat)
    (service_context : option EmbedModel)
    (image_vector_store : option nat)
    (image_embed_model : EmbedType) : M Self :=
  s <- deref vector_store ;;
  if negb (stores_text s) then
    raise (ValueError
      "Cannot initialize from a vector store that does not store text.")
  else
    storage_context <- from_defaults (Some vector_store) ;;
    __init__ (Some []) None service_context (Some storage_context)
             false false false image_vector_store image_embed_model.

End Construction.

(** *** Insertion and deletion *)

(** The loop shared by the two [..._get_node_with_embedding] methods:
    [id_to_embed_map[node.node_id]] raises [KeyError] on a missing
    key. *)
Definition attach (id_to_embed_map : gmap string Embedding) (node : Node)
  : M Node :=
  match id_to_embed_map !! node_id node with
  | Some embedding => ret (set_embedding (Some embedding) (copy node))
  | None => raise (KeyError (node_id node))
  end.

Definition _get_node_with_embedding (self : Self) (nodes : list Node)
    (show_progress : bool) (is_image : bool) : M (list Node) :=
  id_to_embed_map <-
    (if is_image
     then call_embed Blocking true nodes (_image_embed_model self)
                     show_progress
     else call_embed Blocking false nodes (_embed_model self)
                     show_progress) ;;
  collect nodes (attach id_to_embed_map).

Definition _aget_node_with_embedding (self : Self) (nodes : list Node)
    (show_progress : bool) (is_image : bool) : M (list Node) :=
  id_to_embed_map <-
    (if is_image
     then call_embed Awaited true nodes (_image_embed_model self)
                     show_progress
     else call_embed Awaited false nodes (_embed_model self)
                     show_progress) ;;
  collect nodes (attach id_to_embed_map).

(** The partition loop: one pass, appending to the two lists. *)
Fixpoint partition_loop (nodes image_nodes text_nodes : list Node)
  : list Node * list Node :=
  match nodes with
  | [] => (image_nodes, text_nodes)
  | node :: rest =>
      let image_nodes :=
        if isinstance_ImageNode node then image_nodes ++ [node]
        else image_nodes in
      let text_nodes :=
        if truthy (text node) then text_nodes ++ [node]
        else text_nodes in
      partition_loop rest image_nodes text_nodes
  end.

(** [self._vector_store.stores_text] *)
Definition primary_stores_text (self : Self) : M bool :=
  s <- deref (_vector_store self) ;;
  ret (stores_text s).

(** The body of the mirroring loop. *)
Definition mirror_one (p : Node * string) : M unit :=
  let '(node, new_id) := p in
  let node_without_embedding := set_embedding None (copy node) in
  call_add_node node_without_embedding new_id ;;;
  call_add_documents [node_without_embedding] true.

Definition _add_nodes_to_index (self : Self) (nodes : list Node)
    (show_progress : bool) (insert_kwargs : Kwargs) : M unit :=
  match nodes with
  | [] => ret tt
  | _ :: _ =>
      let '(image_nodes, text_nodes) := partition_loop nodes [] [] in
      text_nodes <-
        _get_node_with_embedding self text_nodes show_progress false ;;
      primary <- get_vector_store DEFAULT_VECTOR_STORE ;;
      new_text_ids <- call_add Blocking primary text_nodes insert_kwargs ;;
      image_nodes <-
        _get_node_with_embedding self image_nodes show_progress true ;;
      secondary <- get_vector_store image_namespace ;;
      new_img_ids <- call_add Blocking secondary image_nodes insert_kwargs ;;
      let all_nodes := text_nodes ++ image_nodes in
      let all_new_ids := new_text_ids ++ new_img_ids in
      keeps_text <- primary_stores_text self ;;
      if negb keeps_text || _store_nodes_override self
      then for_each (zip all_nodes all_new_ids) mirror_one
      else ret tt
  end.

Definition _async_add_nodes_to_index (self : Self) (nodes : list Node)
    (show_progress : bool) (insert_kwargs : Kwargs) : M unit :=
  match nodes with
  | [] => ret tt
  | _ :: _ =>
      let '(image_nodes, text_nodes) := partition_loop nodes [] [] in
      text_nodes <-
        _aget_node_with_embedding self text_nodes show_progress false ;;
      primary <- get_vector_store DEFAULT_VECTOR_STORE ;;
      new_text_ids <- call_add Awaited primary text_nodes insert_kwargs ;;
      image_nodes <-
        _aget_node_with_embedding self image_nodes show_progress true ;;
      secondary <- get_vector_store image_namespace ;;
      new_img_ids <- call_add Awaited secondary image_nodes insert_kwargs ;;
      let all_nodes := text_nodes ++ image_nodes in
      let all_new_ids := new_text_ids ++ new_img_ids in
      keeps_text <- primary_stores_text self ;;
      if negb keeps_text || _store_nodes_override self
      then for_each (zip all_nodes all_new_ids) mirror_one
      else ret tt
  end.

(** [self._store_nodes_override or self._vector_store.stores_text]:
    the right operand is evaluated only when the left one is false. *)
Definition cleanup_gate (self : Self) : M bool :=
  if _store_nodes_override self then ret true
  else primary_stores_text self.

(** The body of the inner loop of [delete_ref_doc]. *)
Definition cleanup_one (self : Self) (node_id : string) : M unit :=
  call_index_delete node_id ;;;
  call_delete (_vector_store self) node_id.

(** The body of the loop over the registered vector stores; the
    conditional is part of that body in the source. *)
Definition delete_from_store (self : Self) (ref_doc_id : string)
    (vector_store : nat) : M unit :=
  call_delete vector_store ref_doc_id ;;;
  gate <- cleanup_gate self ;;
  if gate then
    ref_doc_info <- call_get_ref_doc_info ref_doc_id ;;
    match ref_doc_info with
    | Some info => for_each (node_ids info) (cleanup_one self)
    | None => ret tt
    end
  else ret tt.

Definition delete_ref_doc (self : Self) (ref_doc_id : string)
    (delete_from_docstore : bool) : M unit :=
  registered <- get_vector_stores ;;
  for_each (map snd registered) (delete_from_store self ref_doc_id) ;;;
  (if delete_from_docstore
   then call_delete_ref_doc ref_doc_id false
   else ret tt) ;;;
  call_add_index_struct.

End Model.

Arguments mkOutcome {B A} result world calls.
Arguments result {B A} o.
Arguments world {B A} o.
Arguments calls {B A} o.

Notation "x <- m ;; k" := (bind m (fun x => k))
  (at level 100, m at next level, right associativity).
Notation "m ;;; k" := (bind m (fun _ => k))
  (at level 100, right associativity).

(** ** A concrete set of collaborators

    Small in-memory collaborators on which the methods can be run:
    a vector store that keeps the nodes it is given and returns their
    ids, a document store with its reverse index from logical
    documents to node ids, an index structure, an index store and
    embedding models that either answer with a fixed vector per node
    or are out of service. *)
Module Sample.

Record Store := mkStore {
  keeps_text : bool;
  rows : list Node
}.

Definition add (s : Store) (nodes : list Node) (kw : Kwargs)
  : Result (list string) * Store :=
  (Ok (map node_id nodes), mkStore (keeps_text s) (rows s ++ nodes)).

Definition matches (id : string) (n : Node) : bool :=
  String.eqb (node_id n) id
  || match ref_doc_id n with
     | Some r => String.eqb r id
     | None => false
     end.

Definition delete (s : Store) (id : string) : Result unit * Store :=
  (Ok tt, mkStore (keeps_text s)
                  (filter (fun n => negb (matches id n)) (rows s))).

Record Docs := mkDocs {
  docs : list (string * Node);
  ref_doc_info : list (string * list string)
}.

Definition dict_del {V} (d : list (string * V)) (key : string)
  : list (string * V) :=
  filter (fun kv => negb (String.eqb kv.1 key)) d.

Definition mem (x : string) (xs : list string) : bool :=
  existsb (String.eqb x) xs.

Definition add_document (d : Docs) (n : Node) (allow_update : bool)
  : Result unit * Docs :=
  match dict_get (docs d) (node_id n), allow_update with
  | Some _, false => (Raise (ValueError "node already exists"), d)
  | _, _ =>
      let known :=
        match ref_doc_id n with
        | Some r =>
            let ids := default [] (dict_get (ref_doc_info d) r) in
            dict_set (ref_doc_info d) r
                     (if mem (node_id n) ids then ids
                      else ids ++ [node_id n])
        | None => ref_doc_info d
        end in
      (Ok tt, mkDocs (dict_set (docs d) (node_id n) n) known)
  end.

Fixpoint add_documents (d : Docs) (nodes : list Node) (allow_update : bool)
  : Result unit * Docs :=
  match nodes with
  | [] => (Ok tt, d)
  | n :: rest =>
      match add_document d n allow_update with
      | (Ok _, d') => add_documents d' rest allow_update
      | (Raise e, d') => (Raise e, d')
      end
  end.

Definition get_ref_doc_info (d : Docs) (id : string) : option RefDocInfo :=
  mkRefDocInfo <$> dict_get (ref_doc_info d) id.

Definition delete_ref_doc (d : Docs) (id : string) (raise_error : bool)
  : Result unit * Docs :=
  match dict_get (ref_doc_info d) id with
  | None =>
      if raise_error then (Raise (ValueError "ref_doc_id not found"), d)
      else (Ok tt, d)
  | Some ids =>
      (Ok tt, mkDocs (filter (fun kv => negb (mem kv.1 ids)) (docs d))
                     (dict_del (ref_doc_info d) id))
  end.

(** The index structure maps the id under which a node was registered
    to the id of the node. *)
Definition add_node (s : list (string * string)) (n : Node)
    (text_id : string) : Result unit * list (string * string) :=
  (Ok tt, dict_set s text_id (node_id n)).

(** [del nodes_dict[id]]: a missing key raises [KeyError]. *)
Definition index_delete (s : list (string * string)) (id : string)
  : Result unit * list (string * string) :=
  match dict_get s id with
  | Some _ => (Ok tt, dict_del s id)
  | None => (Raise (KeyError id), s)
  end.

Definition add_index_struct (st : option (list (string * string)))
    (s : list (string * string))
  : Result unit * option (list (string * string)) :=
  (Ok tt, Some s).

Record Model := mkModel {
  multi_modal : bool;
  in_service : bool
}.

Definition embed_with (e : Embedding) (nodes : list Node) (m : Model)
    (show_progress : bool) : Result (gmap string Embedding) :=
  if in_service m
  then Ok (list_to_map (map (fun n => (node_id n, e)) nodes))
  else Raise (ExternalError "embedding failed").

Definition text_vector : Embedding := [1%float].
Definition image_vector : Embedding := [2%float].

Definition resolve (t : string + Model) : Result Model :=
  match t with
  | inl name => Ok (mkModel (String.eqb name "clip") true)
  | inr m => Ok m
  end.

#[refine] Instance backends : Backends := {|
  VectorStore := Store;
  stores_text := keeps_text;
  vs_add := add;
  vs_async_add := add;
  vs_delete := delete;
  SimpleVectorStore := mkStore false [];
  DocStore := Docs;
  ds_add_documents := add_documents;
  ds_get_ref_doc_info := get_ref_doc_info;
  ds_delete_ref_doc := delete_ref_doc;
  SimpleDocumentStore := mkDocs [] [];
  IndexStruct := list (string * string);
  is_add_node := add_node;
  is_delete := index_delete;
  IndexStore := option (list (string * string));
  ixs_add_index_struct := add_index_struct;
  SimpleIndexStore := None;
  EmbedModel := Model;
  isinstance_MultiModalEmbedding := multi_modal;
  embed_nodes := embed_with text_vector;
  async_embed_nodes := embed_with text_vector;
  embed_image_nodes := embed_with image_vector;
  async_embed_image_nodes := embed_with image_vector;
  resolve_embed_model := resolve
|}.
Proof. all: reflexivity. Defined.

(** A plain node, an image with a caption, an image without one and a
    plain node without text. *)
Definition hello : Node := mkNode "a" TextNode "hello" (Some "doc1") None.
Definition cat : Node :=
  mkNode "b" (ImageNode (Some "cat.png")) "a cat" (Some "doc2") None.
Definition dog : Node :=
  mkNode "d" (ImageNode (Some "dog.png")) "" (Some "doc2") None.
Definition blank : Node := mkNode "e" TextNode "" None None.

(** A storage context with a primary store at address 0 and an image
    store at address 1. *)
Definition start (primary_keeps_text : bool) : World :=
  mkWorld [mkStore primary_keeps_text []; mkStore true []]
          (mkStorageContext
             [(DEFAULT_VECTOR_STORE, 0); (image_namespace, 1)]
             (mkDocs [] []) None)
          [].

(** An index over that context. *)
Definition index (override : bool) : Self :=
  mkSelf (mkModel true true) 1 (mkModel false true) 0 override.

(** The same index with an image embedder that is out of service. *)
Definition index_without_images : Self :=
  mkSelf (mkModel true false) 1 (mkModel false true) 0 false.

(** A base-class constructor that only fills in the attributes. *)
Definition base_init (image_embed_model : @EmbedModel backends)
    (image_vector_store : nat) (nodes : option (list Node))
    (index_struct : option (@IndexStruct backends))
    (service_context : option (@EmbedModel backends))
    (show_progress use_async store_nodes_override : bool) : M Self :=
  primary <- get_vector_store DEFAULT_VECTOR_STORE ;;
  ret (mkSelf image_embed_model image_vector_store
              (default (mkModel false true) service_context)
              primary store_nodes_override).

(** An index whose text embedder is out of service. *)
Definition index_without_text : Self :=
  mkSelf (mkModel true true) 1 (mkModel false false) 0 false.

(** A context whose primary store retains text, with a document store
    that knows the logical document [doc1] and its node [a], and an
    index structure that has [a] registered. *)
Definition populated : World :=
  mkWorld [mkStore true [hello]; mkStore true []]
          (mkStorageContext
             [(DEFAULT_VECTOR_STORE, 0); (image_namespace, 1)]
             (mkDocs [("a", hello)] [("doc1", ["a"])]) None)
          [("a", "a")].

(** A context with no store registered under the default namespace,
    one with none under the image namespace, and one whose two
    namespaces name the same store. *)
Definition without_default : World :=
  mkWorld [mkStore true []]
          (mkStorageContext [(image_namespace, 0)] (mkDocs [] []) None) [].

Definition without_image : World :=
  mkWorld [mkStore false []]
          (mkStorageContext [(DEFAULT_VECTOR_STORE, 0)] (mkDocs [] []) None)
          [].

Definition shared : World :=
  mkWorld [mkStore false []]
          (mkStorageContext
             [(DEFAULT_VECTOR_STORE, 0); (image_namespace, 0)]
             (mkDocs [] []) None)
          [].

End Sample.

(** ** Collaborators that can fail

    A second set of collaborators: a vector store that raises on
    [add] when it is read-only, and an image embedder that has no
    vector for an image node without payload.  The other
    collaborators are the ones of [Sample]. *)
Module Faulty.

Record Store := mkStore {
  keeps_text : bool;
  writable : bool;
  rows : list Node
}.

Definition add (s : Store) (nodes : list Node) (kw : Kwargs)
  : Result (list string) * Store :=
  if writable s
  then (Ok (map node_id nodes),
        mkStore (keeps_text s) true (rows s ++ nodes))
  else (Raise (ExternalError "store is read-only"), s).

Definition delete (s : Store) (id : string) : Result unit * Store :=
  (Ok tt, mkStore (keeps_text s) (writable s)
                  (filter (fun n => negb (Sample.matches id n)) (rows s))).

Definition has_payload (n : Node) : bool :=
  match kind n with
  | ImageNode (Some _) => true
  | _ => false
  end.

Definition embed_images (nodes : list Node) (m : Sample.Model)
    (show_progress : bool) : Result (gmap string Embedding) :=
  Sample.embed_with Sample.image_vector (filter has_payload nodes) m
                    show_progress.

Definition backends : Backends.
Proof.
  refine {|
    VectorStore := Store;
    stores_text := keeps_text;
    vs_add := add;
    vs_async_add := add;
    vs_delete := delete;
    SimpleVectorStore := mkStore false true [];
    DocStore := Sample.Docs;
    ds_add_documents := Sample.add_documents;
    ds_get_ref_doc_info := Sample.get_ref_doc_info;
    ds_delete_ref_doc := Sample.delete_ref_doc;
    SimpleDocumentStore := Sample.mkDocs [] [];
    IndexStruct := list (string * string);
    is_add_node := Sample.add_node;
    is_delete := Sample.index_delete;
    IndexStore := option (list (string * string));
    ixs_add_index_struct := Sample.add_index_struct;
    SimpleIndexStore := None;
    EmbedModel := Sample.Model;
    isinstance_MultiModalEmbedding := Sample.multi_modal;
    embed_nodes := Sample.embed_with Sample.text_vector;
    async_embed_nodes := Sample.embed_with Sample.text_vector;
    embed_image_nodes := embed_images;
    async_embed_image_nodes := embed_images;
    resolve_embed_model := Sample.resolve
  |}.
  - intros s ns kw. unfold add. by destruct (writable s).
  - intros s ns kw. unfold add. by destruct (writable s).
  - reflexivity.
Defined.

(** An image node without payload. *)
Definition bare : Node := mkNode "f" (ImageNode None) "" None None.

(** A context whose primary store, which does not retain text, is
    writable or not, and whose image store is writable or not. *)
Definition start (primary_writable image_writable : bool)
  : @World backends :=
  @mkWorld backends
    [mkStore false primary_writable []; mkStore true image_writable []]
    (@mkStorageContext backends
       [(DEFAULT_VECTOR_STORE, 0); (image_namespace, 1)]
       (Sample.mkDocs [] []) None)
    [].

Definition index : @Self backends :=
  @mkSelf backends (Sample.mkModel true true) 1
          (Sample.mkModel false true) 0 false.

End Faulty.

(** ** Vocabulary of the properties *)

Section Vocabulary.
Context `{B : Backends}.

(** A node carries text when its text is not empty. *)
Definition has_text (node : Node) : bool := truthy (text node).

(** The two lists built by the partition loop of the insertion. *)
Definition image_partition (nodes : list Node) : list Node :=
  (partition_loop nodes [] []).1.

Definition text_partition (nodes : list Node) : list Node :=
  (partition_loop nodes [] []).2.

(** The copy that is mirrored: [node_without_embedding]. *)
Definition strip (node : Node) : Node := set_embedding None (copy node).

(** Mirroring is active when the primary store does not retain text
    or the caller forced the store-nodes override. *)
Definition mirroring (self : Self) (w : World) : bool :=
  match heap w !! _vector_store self with
  | Some s => negb (stores_text s) || _store_nodes_override self
  | None => false
  end.

(** The calls that write a mirror entry, and the ones that clean one
    up. *)
Definition is_mirror_call (c : Call) : bool :=
  match c with
  | CallAddNode _ _ | CallAddDocuments _ _ => true
  | _ => false
  end.

Definition is_cleanup_call (c : Call) : bool :=
  match c with
  | CallGetRefDocInfo _ | CallIndexDelete _ => true
  | _ => false
  end.

(** The nodes a call hands to a collaborator. *)
Definition nodes_of (c : Call) : list Node :=
  match c with
  | CallEmbed _ _ nodes | CallAdd _ _ nodes _ | CallAddDocuments nodes _ =>
      nodes
  | CallAddNode node _ => [node]
  | _ => []
  end.

(** A call seen without its concurrency style. *)
Definition blocking_view (c : Call) : Call :=
  match c with
  | CallEmbed _ is_image nodes => CallEmbed Blocking is_image nodes
  | CallAdd _ store nodes kw => CallAdd Blocking store nodes kw
  | _ => c
  end.

(** The calls of one pass of the mirroring loop over a pair. *)
Definition mirror_calls (p : Node * string) : list Call :=
  [CallAddNode (strip p.1) p.2; CallAddDocuments [strip p.1] true].

(** The world with another heap. *)
Definition with_heap (h : list VectorStore) (w : World) : World :=
  mkWorld h (storage_context w) (index_struct w).

(** The model an embedding call is given. *)
Definition model_for (self : Self) (is_image : bool) : EmbedModel :=
  if is_image then _image_embed_model self else _embed_model self.

(** The loop of [attach] as a function. *)
Fixpoint attach_all (id_to_embed_map : gmap string Embedding)
    (nodes : list Node) : Result (list Node) :=
  match nodes with
  | [] => Ok []
  | node :: rest =>
      match id_to_embed_map !! node_id node with
      | None => Raise (KeyError (node_id node))
      | Some e =>
          match attach_all id_to_embed_map rest with
          | Ok rs => Ok (set_embedding (Some e) (copy node) :: rs)
          | Raise x => Raise x
          end
      end
  end.

(** What an embedding stage computes: the embedding call followed by
    the loop that attaches the vectors to copies. *)
Definition embedded (v : Variant) (self : Self) (show_progress : bool)
    (is_image : bool) (nodes : list Node) : Result (list Node) :=
  match sel_embed v is_image nodes (model_for self is_image) show_progress
  with
  | Ok id_to_embed_map => attach_all id_to_embed_map nodes
  | Raise e => Raise e
  end.

(** The two insertion methods differ only in the style of their
    calls; this is their common shape. *)
Definition get_node_with_embedding_by (v : Variant) (self : Self)
    (nodes : list Node) (show_progress : bool) (is_image : bool)
  : M (list Node) :=
  id_to_embed_map <-
    call_embed v is_image nodes (model_for self is_image) show_progress ;;
  collect nodes (attach id_to_embed_map).

Definition mirror_step (self : Self) (all_nodes : list Node)
    (all_new_ids : list string) : M unit :=
  keeps_text <- primary_stores_text self ;;
  if negb keeps_text || _store_nodes_override self
  then for_each (zip all_nodes all_new_ids) mirror_one
  else ret tt.

Definition add_nodes_by (v : Variant) (self : Self) (nodes : list Node)
    (show_progress : bool) (insert_kwargs : Kwargs) : M unit :=
  match nodes with
  | [] => ret tt
  | _ :: _ =>
      text_nodes <-
        get_node_with_embedding_by v self (text_partition nodes)
                                   show_progress false ;;
      primary <- get_vector_store DEFAULT_VECTOR_STORE ;;
      new_text_ids <- call_add v primary text_nodes insert_kwargs ;;
      image_nodes <-
        get_node_with_embedding_by v self (image_partition nodes)
                                   show_progress true ;;
      secondary <- get_vector_store image_namespace ;;
      new_img_ids <- call_add v secondary image_nodes insert_kwargs ;;
      mirror_step self (text_nodes ++ image_nodes)
                  (new_text_ids ++ new_img_ids)
  end.

(** An outcome with calls made before it. *)
Definition prepend {A} (cs : list Call) (o : Outcome A) : Outcome A :=
  mkOutcome (result o) (world o) (cs ++ calls o).

(** One stage of the insertion as a function of the starting world:
    embed a partition, look the store up under its namespace, add the
    embedded copies to it. *)
Definition persist_outcome (v : Variant) (self : Self)
    (show_progress : bool) (kw : Kwargs) (is_image : bool)
    (namespace : string) (part : list Node) (w : World)
  : Outcome (list Node * list string) :=
  match embedded v self show_progress is_image part with
  | Raise e => mkOutcome (Raise e) w [CallEmbed v is_image part]
  | Ok en =>
      match dict_get (vector_stores (storage_context w)) namespace with
      | None =>
          mkOutcome (Raise (KeyError namespace)) w
                    [CallEmbed v is_image part]
      | Some l =>
          match heap w !! l with
          | None =>
              mkOutcome (Raise ReferenceError) w [CallEmbed v is_image part]
          | Some s =>
              let r := sel_add v s en kw in
              mkOutcome
                (match r.1 with
                 | Ok ids => Ok (en, ids)
                 | Raise e => Raise e
                 end)
                (with_heap (<[l := r.2]> (heap w)) w)
                [CallEmbed v is_image part; CallAdd v l en kw]
          end
      end
  end.

(** The index structure and the document store after the mirroring
    loop has run over a list of pairs. *)
Definition registered (s : IndexStruct) (pairs : list (Node * string))
  : IndexStruct :=
  foldl (fun s p => (is_add_node s (strip p.1) p.2).2) s pairs.

Definition upserted (d : DocStore) (pairs : list (Node * string))
  : DocStore :=
  foldl (fun d p => (ds_add_documents d [strip p.1] true).2) d pairs.

(** A call that writes a mirror entry hands over nodes without
    embedding. *)
Definition mirrors_without_embedding (c : Call) : Prop :=
  match c with
  | CallAddNode node _ => embedding node = None
  | CallAddDocuments nodes _ => Forall (fun n => embedding n = None) nodes
  | _ => True
  end.

(** The insertion method behind each entry point. *)
Definition insert_by (v : Variant)
  : Self -> list Node -> bool -> Kwargs -> M unit :=
  match v with
  | Blocking => _add_nodes_to_index
  | Awaited => _async_add_nodes_to_index
  end.

(** The add of a vector store, the text embedding function and the
    image embedding function that an entry point calls: the blocking
    ones from the synchronous entry point, the awaited ones from the
    asynchronous one. *)
Definition store_add_of (v : Variant)
  : VectorStore -> list Node -> Kwargs ->
    Result (list string) * VectorStore :=
  match v with
  | Blocking => vs_add
  | Awaited => vs_async_add
  end.

Definition text_embedder_of (v : Variant)
  : list Node -> EmbedModel -> bool -> Result (gmap string Embedding) :=
  match v with
  | Blocking => embed_nodes
  | Awaited => async_embed_nodes
  end.

Definition image_embedder_of (v : Variant)
  : list Node -> EmbedModel -> bool -> Result (gmap string Embedding) :=
  match v with
  | Blocking => embed_image_nodes
  | Awaited => async_embed_image_nodes
  end.

(** [c] is the node [n] with the embedding [e] and nothing else
    changed. *)
Definition is_copy_with (e : option Embedding) (n c : Node) : Prop :=
  node_id c = node_id n
  /\ kind c = kind n
  /\ text c = text n
  /\ ref_doc_id c = ref_doc_id n
  /\ embedding c = e.

(** [c] is the node [n] with the vector that the map of an embedding
    call holds for its id. *)
Definition copy_embedded_by (m : gmap string Embedding) (n c : Node)
  : Prop :=
  exists e, m !! node_id n = Some e /\ is_copy_with (Some e) n c.

(** A captioned image [n] is stored in both vector stores by a run of
    the insertion from [w] with outcome [o].  The text embedding
    function, called on the text partition with the text model, and
    the image embedding function, called on the image partition with
    the image model, have each produced a vector for the id of [n].
    The store under the default namespace was given, by its add, the
    nodes of the text partition in order, each with its text vector,
    among them [n] with its text vector; the store under the image
    namespace was given the nodes of the image partition in order,
    each with its image vector, among them [n] with its image
    vector.  Both adds returned, and the store objects of the final
    world are the ones these two adds have left. *)
Definition stored_in_both (v : Variant) (self : Self) (nodes : list Node)
    (show_progress : bool) (kw : Kwargs) (w : World) (n : Node)
    (o : Outcome unit) : Prop :=
  exists primary secondary mt mi et ei text_nodes image_nodes s0 s1
         new_text_ids new_img_ids text_copy image_copy,
    dict_get (vector_stores (storage_context w)) DEFAULT_VECTOR_STORE
      = Some primary
    /\ dict_get (vector_stores (storage_context w)) image_namespace
       = Some secondary
    /\ text_embedder_of v (text_partition nodes) (_embed_model self)
                        show_progress = Ok mt
    /\ mt !! node_id n = Some et
    /\ image_embedder_of v (image_partition nodes)
                         (_image_embed_model self) show_progress = Ok mi
    /\ mi !! node_id n = Some ei
    /\ Forall2 (copy_embedded_by mt) (text_partition nodes) text_nodes
    /\ Forall2 (copy_embedded_by mi) (image_partition nodes) image_nodes
    /\ text_copy ∈ text_nodes
    /\ is_copy_with (Some et) n text_copy
    /\ image_copy ∈ image_nodes
    /\ is_copy_with (Some ei) n image_copy
    /\ CallAdd v primary text_nodes kw ∈ calls o
    /\ CallAdd v secondary image_nodes kw ∈ calls o
    /\ heap w !! primary = Some s0
    /\ (store_add_of v s0 text_nodes kw).1 = Ok new_text_ids
    /\ <[primary := (store_add_of v s0 text_nodes kw).2]> (heap w)
         !! secondary = Some s1
    /\ (store_add_of v s1 image_nodes kw).1 = Ok new_img_ids
    /\ heap (world o)
       = <[secondary := (store_add_of v s1 image_nodes kw).2]>
           (<[primary := (store_add_of v s0 text_nodes kw).2]> (heap w)).

(** A node that the partition loop keeps. *)
Definition kept (node : Node) : bool :=
  isinstance_ImageNode node || has_text node.

(** A node handed to a collaborator comes from the batch when it is,
    up to its embedding, a node of the batch that the partition loop
    keeps. *)
Definition from_batch (nodes : list Node) (n : Node) : Prop :=
  exists n0, n0 ∈ nodes /\ kept n0 = true /\ strip n = strip n0.

(** What the gate of the cleanup in [delete_ref_doc] evaluates to. *)
Definition cleanup_active (self : Self) (w : World) : bool :=
  _store_nodes_override self
  || match heap w !! _vector_store self with
     | Some s => stores_text s
     | None => false
     end.

(** The calls of one pass of the loop of [delete_ref_doc] for a
    logical document without entry in the document store. *)
Definition store_pass (self : Self) (w : World) (id : string) (l : nat)
  : list Call :=
  CallDelete l id
  :: (if cleanup_active self w then [CallGetRefDocInfo id] else []).

(** The claim that an insertion is all or nothing: it succeeds, or it
    fails with every vector store as it was. *)
Definition all_or_nothing (w : World) (o : Outcome unit) : Prop :=
  result o = Ok tt \/ heap (world o) = heap w.

End Vocabulary.

(** ** Vocabulary of the further properties *)

Section FurtherVocabulary.
Context `{B : Backends}.

(** The read-only properties [image_vector_store] and
    [image_embed_model] of the index. *)
Definition image_vector_store (self : Self) : nat :=
  _image_vector_store self.

Definition image_embed_model (self : Self) : EmbedModel :=
  _image_embed_model self.

(** The embedding method behind each entry point. *)
Definition get_node_with_embedding_of (v : Variant)
  : Self -> list Node -> bool -> bool -> M (list Node) :=
  match v with
  | Blocking => _get_node_with_embedding
  | Awaited => _aget_node_with_embedding
  end.

(** Every call of a computation satisfies [P], however it ends. *)
Definition emits (P : Call -> Prop) {A} (m : M A) : Prop :=
  forall w, Forall P (calls (m w)).

(** A computation leaves [f] of the world as it was, however it
    ends. *)
Definition keeps {X A} (f : World -> X) (m : M A) : Prop :=
  forall w, f (world (m w)) = f w.

(** The registered namespaces with the store each one names. *)
Definition registry (w : World) : list (string * nat) :=
  vector_stores (storage_context w).

(** Which store objects exist and what each one retains. *)
Definition flags (w : World) : list bool := stores_text <$> heap w.

(** The calls that only a deletion makes. *)
Definition is_deletion_call (c : Call) : bool :=
  match c with
  | CallDelete _ _ | CallIndexDelete _ | CallGetRefDocInfo _
  | CallDeleteRefDoc _ _ | CallAddIndexStruct => true
  | _ => false
  end.

(** The calls a deletion of the logical document [id] may make: the
    document store is only ever asked about [id], and asked to remove
    it without raising. *)
Definition deletion_call_for (id : string) (c : Call) : Prop :=
  match c with
  | CallDelete _ _ | CallIndexDelete _ | CallAddIndexStruct => True
  | CallGetRefDocInfo x => x = id
  | CallDeleteRefDoc x raise_error => x = id /\ raise_error = false
  | _ => False
  end.

(** The calls that remove one node, and the calls of one pass of the
    loop of [delete_ref_doc] for a logical document the document store
    knows, with the gate open. *)
Definition node_cleanup (self : Self) (node_id : string) : list Call :=
  [CallIndexDelete node_id; CallDelete (_vector_store self) node_id].

Definition full_pass (self : Self) (id : string) (info : RefDocInfo)
    (l : nat) : list Call :=
  CallDelete l id :: CallGetRefDocInfo id
  :: concat (node_cleanup self <$> node_ids info).

(** The index structure after the removal of a list of node ids. *)
Definition unregistered (s : IndexStruct) (ids : list string)
  : IndexStruct :=
  foldl (fun s i => (is_delete s i).2) s ids.

(** The index structure accepts the removal of the node ids, one after
    the other. *)
Fixpoint removable (s : IndexStruct) (ids : list string) : Prop :=
  match ids with
  | [] => True
  | i :: rest =>
      (is_delete s i).1 = Ok tt /\ removable (is_delete s i).2 rest
  end.

End FurtherVocabulary.

(** ** Reasoning about runs *)

Section Runs.
Context `{B : Backends}.

Lemma add_nodes_blocking self nodes sp kw :
  _add_nodes_to_index self nodes sp kw = add_nodes_by Blocking self nodes sp kw.
Proof.
  unfold _add_nodes_to_index, add_nodes_by, text_partition, image_partition.
  destruct nodes; [done|].
  by destruct (partition_loop _ _ _).
Qed.

Lemma add_nodes_awaited self nodes sp kw :
  _async_add_nodes_to_index self nodes sp kw
  = add_nodes_by Awaited self nodes sp kw.
Proof.
  unfold _async_add_nodes_to_index, add_nodes_by, text_partition,
    image_partition.
  destruct nodes; [done|].
  by destruct (partition_loop _ _ _).
Qed.

(** *** The partition loop *)

Lemma partition_loop_filter (nodes image_nodes text_nodes : list Node) :
  partition_loop nodes image_nodes text_nodes
  = (image_nodes ++ filter isinstance_ImageNode nodes,
     text_nodes ++ filter has_text nodes).
Proof.
  revert image_nodes text_nodes.
  induction nodes as [|node rest IH]; intros image_nodes text_nodes.
  - by rewrite !app_nil_r.
  - cbn [partition_loop]. rewrite IH, !filter_cons. unfold has_text.
    destruct (isinstance_ImageNode node), (truthy (text node)); cbn;
      by rewrite <- ?app_assoc.
Qed.

Lemma image_partition_filter (nodes : list Node) :
  image_partition nodes = filter isinstance_ImageNode nodes.
Proof. unfold image_partition. by rewrite partition_loop_filter. Qed.

Lemma text_partition_filter (nodes : list Node) :
  text_partition nodes = filter has_text nodes.
Proof. unfold text_partition. by rewrite partition_loop_filter. Qed.

(** *** Runs of the primitive steps *)

Lemma bind_unfold {A C} (m : M A) (f : A -> M C) (w : World) :
  bind m f w
  = match result (m w) with
    | Ok a => prepend (calls (m w)) (f a (world (m w)))
    | Raise e => mkOutcome (Raise e) (world (m w)) (calls (m w))
    end.
Proof. reflexivity. Qed.

(** Run the first step of a sequence with the equation of that step. *)
Ltac step lem := rewrite bind_unfold, lem; cbn.

Lemma attach_run (m : gmap string Embedding) (node : Node) (w : World) :
  attach m node w
  = mkOutcome
      (match m !! node_id node with
       | Some e => Ok (set_embedding (Some e) (copy node))
       | None => Raise (KeyError (node_id node))
       end) w [].
Proof. unfold attach. by destruct (m !! node_id node). Qed.

Lemma collect_attach_run (m : gmap string Embedding) (nodes : list Node)
    (w : World) :
  collect nodes (attach m) w = mkOutcome (attach_all m nodes) w [].
Proof.
  induction nodes as [|node rest IH]; [done|].
  cbn [collect attach_all]. rewrite bind_unfold, attach_run.
  cbn [result world calls].
  destruct (m !! node_id node); [|reflexivity].
  rewrite bind_unfold, IH.
  by destruct (attach_all m rest).
Qed.

Lemma get_node_with_embedding_run v self nodes sp is_image w :
  get_node_with_embedding_by v self nodes sp is_image w
  = mkOutcome (embedded v self sp is_image nodes) w
              [CallEmbed v is_image nodes].
Proof.
  unfold get_node_with_embedding_by, embedded, call_embed.
  rewrite !bind_unfold. cbn.
  destruct (sel_embed v is_image nodes _ sp); [|reflexivity].
  cbn. by rewrite collect_attach_run.
Qed.

Lemma get_vector_store_run (namespace : string) (w : World) :
  get_vector_store namespace w
  = mkOutcome
      (match dict_get (vector_stores (storage_context w)) namespace with
       | Some l => Ok l
       | None => Raise (KeyError namespace)
       end) w [].
Proof.
  unfold get_vector_store, get_vector_stores. rewrite !bind_unfold. cbn.
  by destruct (dict_get _ _).
Qed.

Lemma call_add_run v l nodes kw w :
  call_add v l nodes kw w
  = match heap w !! l with
    | Some s =>
        mkOutcome (sel_add v s nodes kw).1
                  (with_heap (<[l := (sel_add v s nodes kw).2]> (heap w)) w)
                  [CallAdd v l nodes kw]
    | None => mkOutcome (Raise ReferenceError) w []
    end.
Proof.
  unfold call_add, deref. rewrite !bind_unfold. cbn.
  destruct (heap w !! l) as [s|]; [|reflexivity].
  cbn. by destruct (sel_add v s nodes kw).1.
Qed.

Lemma call_delete_run l id w :
  call_delete l id w
  = match heap w !! l with
    | Some s =>
        mkOutcome (vs_delete s id).1
                  (with_heap (<[l := (vs_delete s id).2]> (heap w)) w)
                  [CallDelete l id]
    | None => mkOutcome (Raise ReferenceError) w []
    end.
Proof.
  unfold call_delete, deref. rewrite !bind_unfold. cbn.
  destruct (heap w !! l) as [s|]; [|reflexivity].
  cbn. by destruct (vs_delete s id).1.
Qed.

Lemma primary_stores_text_run self w :
  primary_stores_text self w
  = mkOutcome
      (match heap w !! _vector_store self with
       | Some s => Ok (stores_text s)
       | None => Raise ReferenceError
       end) w [].
Proof.
  unfold primary_stores_text, deref. rewrite !bind_unfold. cbn.
  by destruct (heap w !! _vector_store self).
Qed.

(** *** The insertion as two stages and the mirroring step *)

Lemma add_nodes_run v self nodes sp kw w :
  nodes <> [] ->
  add_nodes_by v self nodes sp kw w
  = let o1 := persist_outcome v self sp kw false DEFAULT_VECTOR_STORE
                              (text_partition nodes) w in
    match result o1 with
    | Raise e => mkOutcome (Raise e) (world o1) (calls o1)
    | Ok (text_nodes, new_text_ids) =>
        let o2 := persist_outcome v self sp kw true image_namespace
                                  (image_partition nodes) (world o1) in
        match result o2 with
        | Raise e => mkOutcome (Raise e) (world o2) (calls o1 ++ calls o2)
        | Ok (image_nodes, new_img_ids) =>
            prepend (calls o1 ++ calls o2)
                    (mirror_step self (text_nodes ++ image_nodes)
                                 (new_text_ids ++ new_img_ids) (world o2))
        end
    end.
Proof.
  intros Hne. destruct nodes as [|n0 rest]; [done|]. clear Hne.
  unfold add_nodes_by, persist_outcome.
  set (tp := text_partition (n0 :: rest)).
  set (ip := image_partition (n0 :: rest)).
  step get_node_with_embedding_run.
  destruct (embedded v self sp false tp) as [tn|e]; [|reflexivity]. cbn.
  step get_vector_store_run.
  destruct (dict_get _ DEFAULT_VECTOR_STORE) as [lp|]; [|reflexivity]. cbn.
  rewrite bind_unfold, call_add_run.
  destruct (heap w !! lp) as [s0|]; [|reflexivity]. cbn.
  destruct (sel_add v s0 tn kw).1 as [tids|e]; [|reflexivity]. cbn.
  step get_node_with_embedding_run.
  destruct (embedded v self sp true ip) as [inn|e]; [|reflexivity]. cbn.
  step get_vector_store_run.
  destruct (dict_get _ image_namespace) as [li|]; [|reflexivity]. cbn.
  step call_add_run.
  destruct (_ !! li) as [s1|]; [|reflexivity]. cbn.
  destruct (sel_add v s1 inn kw).1 as [iids|e]; [|reflexivity]. cbn.
  reflexivity.
Qed.

(** *** The embedding stage *)

Lemma attach_all_ok (m : gmap string Embedding) (nodes en : list Node) :
  attach_all m nodes = Ok en ->
  en = (fun n => set_embedding (m !! node_id n) (copy n)) <$> nodes
  /\ Forall (fun n => is_Some (m !! node_id n)) nodes.
Proof.
  revert en. induction nodes as [|node rest IH]; intros en; cbn.
  - intros [= <-]. by split.
  - destruct (m !! node_id node) as [e|] eqn:He; [|done].
    destruct (attach_all m rest) as [rs|]; [|done].
    intros [= <-]. destruct (IH rs eq_refl) as [-> Hall].
    split; [done|]. constructor; [by rewrite He|done].
Qed.

Lemma attach_all_copies (m : gmap string Embedding) (nodes : list Node) :
  Forall (fun n => is_Some (m !! node_id n)) nodes ->
  Forall2 (copy_embedded_by m) nodes
          ((fun n => set_embedding (m !! node_id n) (copy n)) <$> nodes).
Proof.
  induction 1 as [|n rest [e He] _ IH]; cbn; constructor; [|done].
  exists e. rewrite He. by split.
Qed.

Lemma embedded_ok v self sp is_image part en :
  embedded v self sp is_image part = Ok en ->
  exists m,
    sel_embed v is_image part (model_for self is_image) sp = Ok m
    /\ en = (fun n => set_embedding (m !! node_id n) (copy n)) <$> part
    /\ Forall (fun n => is_Some (m !! node_id n)) part.
Proof.
  unfold embedded.
  destruct (sel_embed _ _ _ _ _) as [m|]; [|done].
  intros H. exists m. split; [done|]. by apply attach_all_ok.
Qed.

Lemma embedded_strip v self sp is_image part en n :
  embedded v self sp is_image part = Ok en ->
  n ∈ en -> exists n0, n0 ∈ part /\ strip n = strip n0.
Proof.
  intros (m & _ & -> & _)%embedded_ok (n0 & -> & Hin)%list_elem_of_fmap.
  by exists n0.
Qed.

(** *** The mirroring loop *)

Lemma call_add_node_run node id w :
  call_add_node node id w
  = mkOutcome (is_add_node (index_struct w) node id).1
              (mkWorld (heap w) (storage_context w)
                       (is_add_node (index_struct w) node id).2)
              [CallAddNode node id].
Proof.
  unfold call_add_node. rewrite !bind_unfold. cbn.
  by destruct (is_add_node _ _ _).1.
Qed.

Lemma call_add_documents_run nodes allow_update w :
  call_add_documents nodes allow_update w
  = let r := ds_add_documents (docstore (storage_context w)) nodes
                              allow_update in
    mkOutcome r.1
              (mkWorld (heap w)
                 (mkStorageContext (vector_stores (storage_context w)) r.2
                                   (index_store (storage_context w)))
                 (index_struct w))
              [CallAddDocuments nodes allow_update].
Proof.
  unfold call_add_documents, put_docstore. rewrite !bind_unfold. cbn.
  by destruct (ds_add_documents _ _ _).1.
Qed.

Lemma mirror_one_run (p : Node * string) (w : World) :
  let o := mirror_one p w in
  heap (world o) = heap w
  /\ vector_stores (storage_context (world o))
     = vector_stores (storage_context w)
  /\ index_store (storage_context (world o))
     = index_store (storage_context w)
  /\ Forall (fun c => c ∈ mirror_calls p) (calls o)
  /\ (result o = Ok tt ->
      calls o = mirror_calls p
      /\ index_struct (world o)
         = (is_add_node (index_struct w) (strip p.1) p.2).2
      /\ docstore (storage_context (world o))
         = (ds_add_documents (docstore (storage_context w))
                             [strip p.1] true).2).
Proof.
  destruct p as [node id]. unfold mirror_one, mirror_calls.
  fold (strip node). rewrite bind_unfold, call_add_node_run.
  cbn [result world calls fst snd].
  destruct (is_add_node (index_struct w) (strip node) id).1 as [[]|e].
  - rewrite call_add_documents_run. cbn.
    split_and!; try done.
    repeat constructor; set_solver.
  - cbn. split_and!; try done.
    repeat constructor; set_solver.
Qed.

(** The loop leaves the vector stores, their registry and the index
    store alone; each of its calls is one of the two calls of a pair;
    when it completes, it has made both calls for every pair, in
    order. *)
Lemma mirror_loop_run (pairs : list (Node * string)) (w : World) :
  let o := for_each pairs mirror_one w in
  heap (world o) = heap w
  /\ vector_stores (storage_context (world o))
     = vector_stores (storage_context w)
  /\ index_store (storage_context (world o))
     = index_store (storage_context w)
  /\ Forall (fun c => exists p, p ∈ pairs /\ c ∈ mirror_calls p) (calls o)
  /\ (result o = Ok tt ->
      calls o = concat (mirror_calls <$> pairs)
      /\ index_struct (world o) = registered (index_struct w) pairs
      /\ docstore (storage_context (world o))
         = upserted (docstore (storage_context w)) pairs).
Proof.
  revert w. induction pairs as [|p rest IH]; intros w.
  - cbn. by repeat split.
  - cbn [for_each]. rewrite bind_unfold.
    destruct (mirror_one_run p w) as (Hh1 & Hv1 & Hx1 & Hc1 & Hok1).
    assert (Hc1' : Forall (fun c => exists q, q ∈ p :: rest
                                     /\ c ∈ mirror_calls q)
                          (calls (mirror_one p w))).
    { eapply Forall_impl; [exact Hc1|]. intros c Hc. exists p.
      split; [left|done]. }
    destruct (result (mirror_one p w)) as [[]|e] eqn:Er; [|done].
    destruct (IH (world (mirror_one p w))) as (Hh & Hv & Hx & Hc & Hok).
    destruct (Hok1 eq_refl) as (Hcs1 & Hi1 & Hd1).
    unfold prepend; cbn [result world calls].
    rewrite Hh, Hv, Hx. split_and!; try done.
    + apply Forall_app. split; [done|].
      eapply Forall_impl; [exact Hc|].
      intros c (q & Hq & Hcq). exists q. split; [by right|done].
    + intros Hr. destruct (Hok Hr) as (-> & -> & ->).
      rewrite Hcs1, Hi1, Hd1. done.
Qed.

Lemma mirror_step_run self all_nodes all_new_ids w :
  mirror_step self all_nodes all_new_ids w
  = match heap w !! _vector_store self with
    | None => mkOutcome (Raise ReferenceError) w []
    | Some s =>
        if negb (stores_text s) || _store_nodes_override self
        then for_each (zip all_nodes all_new_ids) mirror_one w
        else mkOutcome (Ok tt) w []
    end.
Proof.
  unfold mirror_step. rewrite bind_unfold, primary_stores_text_run. cbn.
  destruct (heap w !! _vector_store self) as [s|]; [|done]. cbn.
  destruct (negb (stores_text s) || _store_nodes_override self); [|done].
  unfold prepend. cbn. by destruct (for_each _ _ _).
Qed.

(** *** The stages *)

Lemma insert_by_shape v self nodes sp kw :
  insert_by v self nodes sp kw = add_nodes_by v self nodes sp kw.
Proof.
  destruct v; [apply add_nodes_blocking|apply add_nodes_awaited].
Qed.

Lemma sel_add_stores_text v s nodes kw :
  stores_text (sel_add v s nodes kw).2 = stores_text s.
Proof.
  destruct v; [apply stores_text_add|apply stores_text_async_add].
Qed.

Lemma mirroring_with_heap self w l s s' :
  heap w !! l = Some s ->
  stores_text s' = stores_text s ->
  mirroring self (with_heap (<[l := s']> (heap w)) w) = mirroring self w.
Proof.
  intros Hl Hs. unfold mirroring, with_heap. cbn.
  destruct (decide (l = _vector_store self)) as [<-|Hne].
  - rewrite list_lookup_insert_eq by (by eapply lookup_lt_Some).
    by rewrite Hl, Hs.
  - by rewrite list_lookup_insert_ne.
Qed.

(** A stage either stops before the add, leaving the world as it was,
    or calls the add of the store found under the namespace. *)
Lemma persist_cases v self sp kw is_image namespace part w :
  let o := persist_outcome v self sp kw is_image namespace part w in
  (is_ok (result o) = false /\ world o = w
   /\ calls o = [CallEmbed v is_image part])
  \/ (exists en l s,
        embedded v self sp is_image part = Ok en
        /\ dict_get (vector_stores (storage_context w)) namespace = Some l
        /\ heap w !! l = Some s
        /\ world o = with_heap (<[l := (sel_add v s en kw).2]> (heap w)) w
        /\ calls o = [CallEmbed v is_image part; CallAdd v l en kw]
        /\ result o = match (sel_add v s en kw).1 with
                      | Ok ids => Ok (en, ids)
                      | Raise e => Raise e
                      end).
Proof.
  unfold persist_outcome.
  destruct (embedded v self sp is_image part) as [en|e]; [|by left].
  destruct (dict_get _ namespace) as [l|]; [|by left].
  destruct (heap w !! l) as [s|] eqn:Hl; [|by left].
  right. by exists en, l, s.
Qed.

Lemma persist_frame v self sp kw is_image namespace part w :
  let o := persist_outcome v self sp kw is_image namespace part w in
  storage_context (world o) = storage_context w
  /\ index_struct (world o) = index_struct w
  /\ mirroring self (world o) = mirroring self w.
Proof.
  cbn zeta.
  destruct (persist_cases v self sp kw is_image namespace part w)
    as [(_ & -> & _)|(en & l & s & _ & _ & Hl & -> & _)]; [done|].
  split_and!; [done..|].
  eapply mirroring_with_heap; [done|]. apply sel_add_stores_text.
Qed.

(** A successful insertion, taken apart. *)
Lemma insert_ok_inv v self nodes sp kw w :
  nodes <> [] ->
  result (insert_by v self nodes sp kw w) = Ok tt ->
  exists tn tids inn iids primary secondary s0 s1 st,
    embedded v self sp false (text_partition nodes) = Ok tn
    /\ dict_get (vector_stores (storage_context w)) DEFAULT_VECTOR_STORE
       = Some primary
    /\ heap w !! primary = Some s0
    /\ (sel_add v s0 tn kw).1 = Ok tids
    /\ embedded v self sp true (image_partition nodes) = Ok inn
    /\ dict_get (vector_stores (storage_context w)) image_namespace
       = Some secondary
    /\ <[primary := (sel_add v s0 tn kw).2]> (heap w) !! secondary = Some s1
    /\ (sel_add v s1 inn kw).1 = Ok iids
    /\ <[secondary := (sel_add v s1 inn kw).2]>
         (<[primary := (sel_add v s0 tn kw).2]> (heap w))
       !! _vector_store self = Some st
    /\ insert_by v self nodes sp kw w
       = prepend [CallEmbed v false (text_partition nodes);
                  CallAdd v primary tn kw;
                  CallEmbed v true (image_partition nodes);
                  CallAdd v secondary inn kw]
           (let w2 :=
              with_heap (<[secondary := (sel_add v s1 inn kw).2]>
                           (<[primary := (sel_add v s0 tn kw).2]> (heap w)))
                        w in
            if negb (stores_text st) || _store_nodes_override self
            then for_each (zip (tn ++ inn) (tids ++ iids)) mirror_one w2
            else mkOutcome (Ok tt) w2 []).
Proof.
  intros Hne. rewrite insert_by_shape, add_nodes_run by done. cbn zeta.
  destruct (persist_cases v self sp kw false DEFAULT_VECTOR_STORE
              (text_partition nodes) w)
    as [(Hr & _)|(tn & primary & s0 & Et & Ep & Hp & -> & -> & ->)].
  { destruct (result _); [done|]. by intros [=]. }
  destruct (sel_add v s0 tn kw).1 as [tids|e] eqn:Ea0; [|by intros [=]].
  set (w1 := with_heap _ w).
  destruct (persist_cases v self sp kw true image_namespace
              (image_partition nodes) w1)
    as [(Hr & _)|(inn & secondary & s1 & Ei & Es & Hs & -> & -> & ->)].
  { destruct (result _) as [[]|]; [done|]. by intros [=]. }
  destruct (sel_add v s1 inn kw).1 as [iids|e] eqn:Ea1; [|by intros [=]].
  rewrite mirror_step_run.
  destruct (_ !! _vector_store self) as [st|] eqn:Hst; [|by intros [=]].
  intros _. exists tn, tids, inn, iids, primary, secondary, s0, s1, st.
  split_and!; try done.
Qed.

(** *** The mirroring step and its gate *)




(** *** What the calls of an insertion carry *)

Lemma kept_strip (n m : Node) : strip n = strip m -> kept n = kept m.
Proof.
  unfold strip, copy, set_embedding, kept, has_text, isinstance_ImageNode.
  intros [= _ Hk Ht _]. by rewrite Hk, Ht.
Qed.

Lemma persist_inventory v self sp kw is_image namespace part w nodes :
  (forall n, n ∈ part -> n ∈ nodes /\ kept n = true) ->
  let o := persist_outcome v self sp kw is_image namespace part w in
  Forall (fun c => mirrors_without_embedding c
                   /\ forall n, n ∈ nodes_of c -> from_batch nodes n)
         (calls o)
  /\ (forall en ids n, result o = Ok (en, ids) -> n ∈ en ->
      from_batch nodes n).
Proof.
  intros Hpart. cbn zeta.
  assert (Hemb : forall n, n ∈ part -> from_batch nodes n).
  { intros n [Hn Hk]%Hpart. by exists n. }
  destruct (persist_cases v self sp kw is_image namespace part w)
    as [(Hr & _ & ->)|(en & l & s & Een & _ & _ & _ & -> & ->)].
  - split.
    + repeat constructor. exact Hemb.
    + intros en ids n Hres. by rewrite Hres in Hr.
  - assert (Hen : forall n, n ∈ en -> from_batch nodes n).
    { intros n Hn.
      destruct (embedded_strip _ _ _ _ _ _ _ Een Hn) as (n0 & Hn0 & Hs).
      destruct (Hpart n0 Hn0) as [Hin Hk]. by exists n0. }
    split.
    + repeat constructor; done.
    + intros en' ids n.
      destruct (sel_add v s en kw).1; [|done].
      by intros [= <- _]; apply Hen.
Qed.

Lemma mirror_loop_inventory (nodes all_nodes : list Node)
    (all_new_ids : list string) (w : World) :
  (forall n, n ∈ all_nodes -> from_batch nodes n) ->
  Forall (fun c => mirrors_without_embedding c
                   /\ forall n, n ∈ nodes_of c -> from_batch nodes n)
         (calls (for_each (zip all_nodes all_new_ids) mirror_one w)).
Proof.
  intros Hall.
  destruct (mirror_loop_run (zip all_nodes all_new_ids) w)
    as (_ & _ & _ & Hc & _).
  eapply Forall_impl; [exact Hc|].
  intros c ([n id] & Hp & Hcp).
  assert (Hn : from_batch nodes (strip n)).
  { apply elem_of_zip_l in Hp. destruct (Hall n Hp) as (n0 & ? & ? & ?).
    by exists n0. }
  unfold mirror_calls in Hcp. cbn in Hcp.
  apply elem_of_cons in Hcp as [->|Hcp].
  { split; [done|]. intros m ->%list_elem_of_singleton. exact Hn. }
  apply list_elem_of_singleton in Hcp as ->.
  split; [by repeat constructor|].
  intros m ->%list_elem_of_singleton. exact Hn.
Qed.

(** Every call of an insertion carries nodes of the batch that the
    partition loop keeps, and the mirror calls carry them without
    embedding. *)
Lemma insert_inventory v self nodes sp kw w :
  Forall (fun c => mirrors_without_embedding c
                   /\ forall n, n ∈ nodes_of c -> from_batch nodes n)
         (calls (insert_by v self nodes sp kw w)).
Proof.
  rewrite insert_by_shape.
  destruct nodes as [|n0 rest]; [by constructor|].
  rewrite add_nodes_run by done. cbn zeta.
  set (nodes := n0 :: rest).
  assert (Htp : forall n, n ∈ text_partition nodes
                          -> n ∈ nodes /\ kept n = true).
  { intros n. rewrite text_partition_filter, list_elem_of_filter.
    unfold kept. intros [Ht%Is_true_true ?]. rewrite Ht.
    by rewrite orb_true_r. }
  assert (Hip : forall n, n ∈ image_partition nodes
                          -> n ∈ nodes /\ kept n = true).
  { intros n. rewrite image_partition_filter, list_elem_of_filter.
    unfold kept. intros [Hi%Is_true_true ?]. by rewrite Hi. }
  destruct (persist_inventory v self sp kw false DEFAULT_VECTOR_STORE
              (text_partition nodes) w nodes Htp) as [Hc1 Hr1].
  destruct (persist_outcome v self sp kw false _ _ w) as [r1 w1 c1].
  cbn in *. destruct r1 as [[tn tids]|e]; [|done].
  destruct (persist_inventory v self sp kw true image_namespace
              (image_partition nodes) w1 nodes Hip) as [Hc2 Hr2].
  destruct (persist_outcome v self sp kw true _ _ w1) as [r2 w2 c2].
  cbn in *. destruct r2 as [[inn iids]|e]; [|by apply Forall_app].
  unfold prepend. cbn. rewrite mirror_step_run.
  apply Forall_app. split; [by apply Forall_app|].
  destruct (heap w2 !! _vector_store self) as [st|]; [|by constructor].
  destruct (negb (stores_text st) || _store_nodes_override self);
    [|by constructor].
  apply mirror_loop_inventory.
  intros n [Hn|Hn]%elem_of_app; [by eapply Hr1|by eapply Hr2].
Qed.

Lemma filter_kept_partitions (nodes : list Node) :
  text_partition (filter kept nodes) = text_partition nodes
  /\ image_partition (filter kept nodes) = image_partition nodes.
Proof.
  rewrite !text_partition_filter, !image_partition_filter.
  split; apply list_filter_filter_l; intros n; unfold kept.
  - intros Ht%Is_true_true. rewrite Ht. by rewrite orb_true_r.
  - by intros Hi%Is_true_true; rewrite Hi.
Qed.

(** *** The awaited twin *)

Section Twins.
Hypothesis async_add_agrees :
  forall s ns kw, vs_async_add s ns kw = vs_add s ns kw.
Hypothesis async_embed_agrees :
  forall ns m sp, async_embed_nodes ns m sp = embed_nodes ns m sp.
Hypothesis async_embed_image_agrees :
  forall ns m sp,
    async_embed_image_nodes ns m sp = embed_image_nodes ns m sp.

Lemma embedded_awaited self sp is_image part :
  embedded Awaited self sp is_image part
  = embedded Blocking self sp is_image part.
Proof using async_embed_agrees async_embed_image_agrees.
  unfold embedded, sel_embed.
  destruct is_image;
    by rewrite ?async_embed_agrees, ?async_embed_image_agrees.
Qed.

Lemma persist_awaited self sp kw is_image namespace part w :
  let oa := persist_outcome Awaited self sp kw is_image namespace part w in
  let ob := persist_outcome Blocking self sp kw is_image namespace part w in
  result oa = result ob /\ world oa = world ob
  /\ blocking_view <$> calls oa = calls ob.
Proof using async_add_agrees async_embed_agrees async_embed_image_agrees.
  unfold persist_outcome. rewrite embedded_awaited.
  destruct (embedded Blocking self sp is_image part) as [en|e]; [|done].
  destruct (dict_get _ namespace) as [l|]; [|done].
  destruct (heap w !! l) as [s|]; [|done].
  cbn. by rewrite async_add_agrees.
Qed.

End Twins.

Lemma fmap_fixed {A} (f : A -> A) (l : list A) :
  Forall (fun x => f x = x) l -> f <$> l = l.
Proof. induction 1 as [|x l Hx _ IH]; [done|]. cbn. by rewrite Hx, IH. Qed.

Lemma mirror_step_view self all_nodes all_new_ids w :
  blocking_view <$> calls (mirror_step self all_nodes all_new_ids w)
  = calls (mirror_step self all_nodes all_new_ids w).
Proof.
  apply fmap_fixed. rewrite mirror_step_run.
  destruct (heap w !! _vector_store self) as [st|]; [|by constructor].
  destruct (negb (stores_text st) || _store_nodes_override self);
    [|by constructor].
  destruct (mirror_loop_run (zip all_nodes all_new_ids) w)
    as (_ & _ & _ & Hc & _).
  eapply Forall_impl; [exact Hc|].
  intros c (p & _ & Hcp). unfold mirror_calls in Hcp.
  apply elem_of_cons in Hcp as [->|Hcp]; [done|].
  by apply list_elem_of_singleton in Hcp as ->.
Qed.

(** *** Deletion *)

Lemma call_get_ref_doc_info_run id w :
  call_get_ref_doc_info id w
  = mkOutcome (Ok (ds_get_ref_doc_info (docstore (storage_context w)) id))
              w [CallGetRefDocInfo id].
Proof. reflexivity. Qed.

Lemma call_delete_ref_doc_run id raise_error w :
  call_delete_ref_doc id raise_error w
  = let r := ds_delete_ref_doc (docstore (storage_context w)) id
                               raise_error in
    mkOutcome r.1
              (mkWorld (heap w)
                 (mkStorageContext (vector_stores (storage_context w)) r.2
                                   (index_store (storage_context w)))
                 (index_struct w))
              [CallDeleteRefDoc id raise_error].
Proof.
  unfold call_delete_ref_doc, put_docstore. rewrite !bind_unfold. cbn.
  by destruct (ds_delete_ref_doc _ _ _).1.
Qed.

Lemma call_add_index_struct_run w :
  call_add_index_struct w
  = let r := ixs_add_index_struct (index_store (storage_context w))
                                  (index_struct w) in
    mkOutcome r.1
              (mkWorld (heap w)
                 (mkStorageContext (vector_stores (storage_context w))
                                   (docstore (storage_context w)) r.2)
                 (index_struct w))
              [CallAddIndexStruct].
Proof.
  unfold call_add_index_struct, put_index_store. rewrite !bind_unfold. cbn.
  by destruct (ixs_add_index_struct _ _).1.
Qed.

Lemma cleanup_gate_run self w :
  is_Some (heap w !! _vector_store self) ->
  cleanup_gate self w = mkOutcome (Ok (cleanup_active self w)) w [].
Proof.
  intros [s Hs]. unfold cleanup_gate, cleanup_active.
  destruct (_store_nodes_override self); [done|].
  by rewrite primary_stores_text_run, Hs.
Qed.

Lemma flags_insert (h : list VectorStore) l s s' :
  h !! l = Some s ->
  stores_text s' = stores_text s ->
  stores_text <$> <[l := s']> h = stores_text <$> h.
Proof.
  intros Hl Hs. rewrite list_fmap_insert, Hs.
  apply list_insert_id. by rewrite list_lookup_fmap, Hl.
Qed.

Lemma flags_is_Some (h h' : list VectorStore) l :
  stores_text <$> h' = stores_text <$> h ->
  is_Some (h !! l) -> is_Some (h' !! l).
Proof.
  intros Hf Hl. apply lookup_lt_is_Some.
  apply lookup_lt_is_Some in Hl.
  by rewrite <- (length_fmap stores_text h'), Hf, length_fmap.
Qed.

Lemma flags_cleanup_active self w h :
  stores_text <$> h = stores_text <$> heap w ->
  cleanup_active self (with_heap h w) = cleanup_active self w.
Proof.
  intros Hf. unfold cleanup_active. cbn. f_equal.
  assert (Hl : (stores_text <$> h) !! _vector_store self
               = (stores_text <$> heap w) !! _vector_store self)
    by by rewrite Hf.
  rewrite !list_lookup_fmap in Hl.
  destruct (h !! _vector_store self), (heap w !! _vector_store self);
    by simplify_eq/=.
Qed.

(** One pass of the loop over the stores, for a logical document the
    document store does not know. *)
Lemma delete_from_store_missing self id l s w :
  ds_get_ref_doc_info (docstore (storage_context w)) id = None ->
  heap w !! l = Some s ->
  (vs_delete s id).1 = Ok tt ->
  is_Some (heap w !! _vector_store self) ->
  delete_from_store self id l w
  = mkOutcome (Ok tt)
              (with_heap (<[l := (vs_delete s id).2]> (heap w)) w)
              (store_pass self w id l).
Proof.
  intros Hmiss Hl Hdel Hprim. unfold delete_from_store, store_pass.
  rewrite bind_unfold, call_delete_run, Hl. cbn [result world calls].
  rewrite Hdel.
  set (w1 := with_heap _ w).
  assert (Hf : stores_text <$> heap w1 = stores_text <$> heap w).
  { eapply flags_insert; [done|]. apply stores_text_delete. }
  rewrite bind_unfold, cleanup_gate_run
    by (eapply flags_is_Some; [exact Hf|done]).
  cbn [result world calls].
  assert (Hca : cleanup_active self w1 = cleanup_active self w)
    by apply (flags_cleanup_active self w _ Hf).
  rewrite Hca.
  destruct (cleanup_active self w); [|done].
  rewrite bind_unfold, call_get_ref_doc_info_run. cbn.
  by rewrite Hmiss.
Qed.

Lemma delete_loop_missing self id (ls : list nat) w :
  ds_get_ref_doc_info (docstore (storage_context w)) id = None ->
  (forall s, (vs_delete s id).1 = Ok tt) ->
  (forall l, l ∈ ls -> is_Some (heap w !! l)) ->
  is_Some (heap w !! _vector_store self) ->
  exists h,
    stores_text <$> h = stores_text <$> heap w
    /\ for_each ls (delete_from_store self id) w
       = mkOutcome (Ok tt) (with_heap h w)
                   (concat (store_pass self w id <$> ls)).
Proof.
  intros Hmiss Hdel. revert w Hmiss.
  induction ls as [|l rest IH]; intros w Hmiss Hlive Hprim.
  - exists (heap w). split; [done|]. by destruct w.
  - destruct (Hlive l) as [s Hl]; [by left|].
    cbn [for_each]. rewrite bind_unfold.
    rewrite (delete_from_store_missing self id l s w) by done.
    cbn [result world calls].
    set (w1 := with_heap _ w).
    assert (Hf : stores_text <$> heap w1 = stores_text <$> heap w).
    { eapply flags_insert; [done|]. apply stores_text_delete. }
    destruct (IH w1) as (h & Hh & Hrun).
    + done.
    + intros l' Hl'. eapply flags_is_Some; [exact Hf|].
      apply Hlive. by right.
    + eapply flags_is_Some; [exact Hf|done].
    + exists h. split; [by rewrite Hh|].
      rewrite Hrun. unfold prepend. cbn.
      assert (Hpass : store_pass self w1 id <$> rest
                      = store_pass self w id <$> rest).
      { apply list_fmap_ext. intros _ l' _. unfold store_pass.
        assert (Hca : cleanup_active self w1 = cleanup_active self w)
          by apply (flags_cleanup_active self w _ Hf).
        by rewrite Hca. }
      by rewrite Hpass.
Qed.

(** With the gate of the cleanup closed, a deletion makes no lookup in
    the reverse index and removes no node, whatever the document store
    knows about the logical document. *)
Lemma delete_from_store_gate_closed self id l w :
  cleanup_active self w = false ->
  is_Some (heap w !! _vector_store self) ->
  let o := delete_from_store self id l w in
  Forall (fun c => is_cleanup_call c = false) (calls o)
  /\ stores_text <$> heap (world o) = stores_text <$> heap w.
Proof.
  intros Hoff Hprim. unfold delete_from_store.
  rewrite bind_unfold, call_delete_run.
  destruct (heap w !! l) as [s|] eqn:Hl; [|by split].
  cbn [result world calls].
  set (w1 := with_heap _ w).
  assert (Hf : stores_text <$> heap w1 = stores_text <$> heap w).
  { eapply flags_insert; [done|]. apply stores_text_delete. }
  destruct (vs_delete s id).1 as [[]|e]; [|by split; [repeat constructor|]].
  rewrite bind_unfold, cleanup_gate_run
    by (eapply flags_is_Some; [exact Hf|done]).
  cbn [result world calls].
  assert (Hca : cleanup_active self w1 = cleanup_active self w)
    by apply (flags_cleanup_active self w _ Hf).
  rewrite Hca, Hoff. by split; [repeat constructor|].
Qed.

Lemma delete_loop_gate_closed self id (ls : list nat) w :
  cleanup_active self w = false ->
  is_Some (heap w !! _vector_store self) ->
  Forall (fun c => is_cleanup_call c = false)
         (calls (for_each ls (delete_from_store self id) w)).
Proof.
  revert w. induction ls as [|l rest IH]; intros w Hoff Hprim.
  - constructor.
  - cbn [for_each]. rewrite bind_unfold.
    destruct (delete_from_store_gate_closed self id l w Hoff Hprim)
      as [Hc Hf].
    destruct (result (delete_from_store self id l w)) as [[]|e]; [|done].
    unfold prepend. cbn [calls]. apply Forall_app. split; [done|].
    apply IH.
    + rewrite <- Hoff.
      destruct (world (delete_from_store self id l w)) as [h1 sc1 is1].
      apply (flags_cleanup_active self w h1 Hf
             : cleanup_active self (mkWorld h1 _ _) = _).
    + eapply flags_is_Some; [exact Hf|done].
Qed.

Lemma delete_with_gate_closed self id delete_from_docstore w :
  cleanup_active self w = false ->
  is_Some (heap w !! _vector_store self) ->
  mirroring self w = true
  /\ Forall (fun c => is_cleanup_call c = false)
            (calls (delete_ref_doc self id delete_from_docstore w)).
Proof.
  intros Hoff Hprim. split.
  - unfold cleanup_active in Hoff. unfold mirroring.
    destruct Hprim as [s Hs]. rewrite Hs in Hoff |- *.
    by destruct (_store_nodes_override self), (stores_text s).
  - unfold delete_ref_doc. rewrite bind_unfold.
    change (get_vector_stores w)
      with (mkOutcome (Ok (vector_stores (storage_context w))) w []).
    cbn [result world calls]. unfold prepend at 1. cbn [app].
    pose proof (delete_loop_gate_closed self id
                  (map snd (vector_stores (storage_context w))) w
                  Hoff Hprim) as Hloop.
    rewrite bind_unfold.
    destruct (for_each _ _ w) as [r1 w1 c1]. cbn in *.
    destruct r1 as [[]|e]; [|done].
    apply Forall_app. split; [done|].
    destruct delete_from_docstore.
    + rewrite bind_unfold, call_delete_ref_doc_run.
      cbn -[call_add_index_struct].
      destruct (ds_delete_ref_doc _ _ _).1 as [[]|e];
        [|by repeat constructor].
      rewrite call_add_index_struct_run. cbn. by repeat constructor.
    + rewrite bind_unfold. cbn -[call_add_index_struct].
      rewrite call_add_index_struct_run. cbn. by repeat constructor.
Qed.

End Runs.

Section Properties.
Context `{B : Backends}.

(** C9: inserting an empty sequence of nodes returns at once, through
    the blocking and the awaited entry point alike: the call succeeds,
    no collaborator is called (in particular no embedding function)
    and the vector stores, the index structure and the document store
    are the ones the call started with. *)
Theorem insert_empty_is_noop (self : Self) (show_progress : bool)
    (insert_kwargs : Kwargs) (w : World) :
  _add_nodes_to_index self [] show_progress insert_kwargs w
    = mkOutcome (Ok tt) w []
  /\ _async_add_nodes_to_index self [] show_progress insert_kwargs w
    = mkOutcome (Ok tt) w [].
Proof. split; reflexivity. Qed.

(** C2: for a non-empty input the partition loop puts a node in the
    image partition exactly when it is an image node and in the text
    partition exactly when its text is not empty, so an image node
    with a caption is in both; when the insertion succeeds, through
    either entry point, such a node has been handed to the primary
    store with the vector of the text embedder and to the store of the
    image namespace with the vector of the image embedder, and the
    final stores are the ones left by these two adds. *)
Theorem captioned_image_reaches_both_stores (v : Variant) (self : Self)
    (nodes : list Node) (show_progress : bool) (kw : Kwargs) (w : World) :
  nodes <> [] ->
  (forall n, n ∈ image_partition nodes
             <-> n ∈ nodes /\ isinstance_ImageNode n = true)
  /\ (forall n, n ∈ text_partition nodes
                <-> n ∈ nodes /\ has_text n = true)
  /\ (forall n,
        n ∈ nodes -> isinstance_ImageNode n = true -> has_text n = true ->
        n ∈ image_partition nodes
        /\ n ∈ text_partition nodes
        /\ (result (insert_by v self nodes show_progress kw w) = Ok tt ->
            stored_in_both v self nodes show_progress kw w n
              (insert_by v self nodes show_progress kw w))).
Proof.
  intros Hne.
  assert (Himg : forall n, n ∈ image_partition nodes
                           <-> n ∈ nodes /\ isinstance_ImageNode n = true).
  { intros n. rewrite image_partition_filter, list_elem_of_filter.
    rewrite Is_true_true. tauto. }
  assert (Htxt : forall n, n ∈ text_partition nodes
                           <-> n ∈ nodes /\ has_text n = true).
  { intros n. rewrite text_partition_filter, list_elem_of_filter.
    rewrite Is_true_true. tauto. }
  split_and!; [done..|].
  intros n Hin Hi Ht.
  assert (Hni : n ∈ image_partition nodes) by by apply Himg.
  assert (Hnt : n ∈ text_partition nodes) by by apply Htxt.
  split_and!; [done..|].
  intros Hok.
  destruct (insert_ok_inv v self nodes show_progress kw w Hne Hok)
    as (tn & tids & inn & iids & primary & secondary & s0 & s1 & st
        & Et & Ep & Hp & Ea0 & Ei & Es & Hs & Ea1 & Hst & Hrun).
  apply embedded_ok in Et as (mt & Emt & Etn & Hallt).
  apply embedded_ok in Ei as (mi & Emi & Einn & Halli).
  destruct (proj1 (Forall_forall _ _) Hallt n Hnt) as [et Het].
  destruct (proj1 (Forall_forall _ _) Halli n Hni) as [ei Hei].
  assert (Hadd : sel_add v = store_add_of v) by by destruct v.
  rewrite Hadd in *.
  exists primary, secondary, mt, mi, et, ei, tn, inn, s0, s1, tids, iids,
    (set_embedding (Some et) (copy n)), (set_embedding (Some ei) (copy n)).
  split_and!; try done.
  - rewrite Etn. by apply attach_all_copies.
  - rewrite Einn. by apply attach_all_copies.
  - rewrite Etn. apply list_elem_of_fmap. exists n. by rewrite Het.
  - rewrite Einn. apply list_elem_of_fmap. exists n. by rewrite Hei.
  - rewrite Hrun. cbn. apply list_elem_of_further, list_elem_of_here.
  - rewrite Hrun. cbn. do 3 apply list_elem_of_further.
    apply list_elem_of_here.
  - rewrite Hrun. cbn.
    destruct (negb (stores_text st) || _store_nodes_override self);
      [|done].
    by destruct (mirror_loop_run (zip (tn ++ inn) (tids ++ iids))
                   (with_heap
                      (<[secondary := (store_add_of v s1 inn kw).2]>
                         (<[primary := (store_add_of v s0 tn kw).2]>
                            (heap w)))
                      w)) as (-> & _).
Qed.


(** C6: every node that an insertion, through either entry point,
    registers in the index structure or upserts into the document
    store has no embedding, whatever the batch, the modality of the
    node and the outcome of the call. *)
Theorem mirrored_copies_carry_no_embedding (v : Variant) (self : Self)
    (nodes : list Node) (show_progress : bool) (kw : Kwargs) (w : World) :
  Forall mirrors_without_embedding
         (calls (insert_by v self nodes show_progress kw w)).
Proof.
  eapply Forall_impl; [apply insert_inventory|]. by intros c [Hc _].
Qed.

(** C10: a node that is not an image node and whose text is empty is
    in neither partition; no call of the insertion, through either
    entry point, hands a copy of it to an embedding function, to a
    vector store, to the index structure or to the document store;
    and as long as the batch has another node to keep, the insertion
    runs exactly as it does on the batch without the dropped nodes,
    so the node causes no error. *)
Theorem plain_node_without_text_is_dropped (v : Variant) (self : Self)
    (nodes : list Node) (show_progress : bool) (kw : Kwargs) (w : World)
    (n : Node) :
  isinstance_ImageNode n = false ->
  has_text n = false ->
  (n ∉ image_partition nodes)
  /\ (n ∉ text_partition nodes)
  /\ Forall (fun c => forall m, m ∈ nodes_of c -> strip m <> strip n)
            (calls (insert_by v self nodes show_progress kw w))
  /\ (filter kept nodes <> [] ->
      insert_by v self nodes show_progress kw w
      = insert_by v self (filter kept nodes) show_progress kw w).
Proof.
  intros Hi Ht. split_and!.
  - rewrite image_partition_filter, list_elem_of_filter.
    intros [H%Is_true_true _]. congruence.
  - rewrite text_partition_filter, list_elem_of_filter.
    intros [H%Is_true_true _]. congruence.
  - eapply Forall_impl; [apply insert_inventory|].
    intros c [_ Hc] m Hm Heq.
    destruct (Hc m Hm) as (n0 & _ & Hk & Hs).
    assert (Hkn : kept n = true).
    { rewrite <- Hk. apply kept_strip. congruence. }
    unfold kept in Hkn. by rewrite Hi, Ht in Hkn.
  - intros Hne. rewrite !insert_by_shape.
    assert (Hne' : nodes <> []) by (by intros ->).
    rewrite !add_nodes_run by done.
    by destruct (filter_kept_partitions nodes) as [-> ->].
Qed.

(** C4, as amended: a failure of the embedding stage of a partition
    ends the insertion, through either entry point, before that
    partition is added to its store.  When the stage of the text
    partition fails, nothing but the text embedding call has happened
    and every store is as it was.  When the text partition has been
    embedded and added and the stage of the image partition fails, the
    only add made is the one of the text partition to the primary
    store, which keeps it; the image store receives no add, and the
    index structure and the document store are as they were. *)
Theorem embedding_failure_stops_before_its_add (v : Variant) (self : Self)
    (nodes : list Node) (show_progress : bool) (kw : Kwargs) (w : World)
    (e : Exn) :
  nodes <> [] ->
  (embedded v self show_progress false (text_partition nodes) = Raise e ->
   insert_by v self nodes show_progress kw w
   = mkOutcome (Raise e) w [CallEmbed v false (text_partition nodes)])
  /\ (forall text_nodes new_text_ids primary s0,
        embedded v self show_progress false (text_partition nodes)
          = Ok text_nodes ->
        dict_get (vector_stores (storage_context w)) DEFAULT_VECTOR_STORE
          = Some primary ->
        heap w !! primary = Some s0 ->
        (sel_add v s0 text_nodes kw).1 = Ok new_text_ids ->
        embedded v self show_progress true (image_partition nodes)
          = Raise e ->
        insert_by v self nodes show_progress kw w
        = mkOutcome (Raise e)
            (with_heap (<[primary := (sel_add v s0 text_nodes kw).2]>
                          (heap w)) w)
            [CallEmbed v false (text_partition nodes);
             CallAdd v primary text_nodes kw;
             CallEmbed v true (image_partition nodes)]).
Proof.
  intros Hne. rewrite insert_by_shape, add_nodes_run by done.
  unfold persist_outcome. split.
  - by intros ->.
  - intros tn tids primary s0 -> -> -> Hadd Himg. cbn.
    rewrite Hadd. cbn. by rewrite Himg.
Qed.

(** C7: when the awaited variants of the collaborators compute what
    the blocking ones compute, the asynchronous insertion ends, for
    every batch and every starting world, with the same result and the
    same vector stores, index structure and document store as the
    synchronous one, after the same sequence of calls, each made in
    its awaited style. *)
Theorem awaited_insert_agrees_with_blocking (self : Self)
    (nodes : list Node) (show_progress : bool) (kw : Kwargs) (w : World) :
  (forall s ns kw, vs_async_add s ns kw = vs_add s ns kw) ->
  (forall ns m sp, async_embed_nodes ns m sp = embed_nodes ns m sp) ->
  (forall ns m sp,
     async_embed_image_nodes ns m sp = embed_image_nodes ns m sp) ->
  let oa := _async_add_nodes_to_index self nodes show_progress kw w in
  let ob := _add_nodes_to_index self nodes show_progress kw w in
  result oa = result ob
  /\ world oa = world ob
  /\ blocking_view <$> calls oa = calls ob.
Proof.
  intros Hadd Hemb Himg. cbn zeta.
  rewrite add_nodes_awaited, add_nodes_blocking.
  destruct nodes as [|n0 rest]; [done|].
  rewrite !add_nodes_run by done. cbn zeta.
  destruct (persist_awaited Hadd Hemb Himg self show_progress kw false
              DEFAULT_VECTOR_STORE (text_partition (n0 :: rest)) w)
    as (Hr1 & Hw1 & Hc1).
  destruct (persist_outcome Awaited self show_progress kw false _ _ w)
    as [r1 w1 c1].
  destruct (persist_outcome Blocking self show_progress kw false _ _ w)
    as [r1' w1' c1'].
  cbn in Hr1, Hw1, Hc1. subst r1' w1' c1'. cbn [result world calls].
  destruct r1 as [[tn tids]|e]; [|done].
  destruct (persist_awaited Hadd Hemb Himg self show_progress kw true
              image_namespace (image_partition (n0 :: rest)) w1)
    as (Hr2 & Hw2 & Hc2).
  destruct (persist_outcome Awaited self show_progress kw true _ _ w1)
    as [r2 w2 c2].
  destruct (persist_outcome Blocking self show_progress kw true _ _ w1)
    as [r2' w2' c2'].
  cbn in Hr2, Hw2, Hc2. subst r2' w2' c2'. cbn [result world calls].
  destruct r2 as [[inn iids]|e].
  - unfold prepend. cbn [result world calls].
    split_and!; [done..|].
    by rewrite !fmap_app, mirror_step_view.
  - cbn [result world calls]. split_and!; [done..|].
    by rewrite fmap_app.
Qed.

(** C8: deleting a logical document that the document store does
    not know raises nothing, provided the collaborators do not fail on
    that id (the stores' delete succeeds, the document store accepts
    the removal of a missing entry when told not to raise, the index
    store takes the index structure) and the registered stores exist:
    every registered store is asked to delete the id, the lookup in
    the reverse index finds nothing and no node is cleaned up, the
    document store is asked to remove the entry without raising when
    [delete_from_docstore] is set, and the index structure, unchanged,
    is handed to the index store. *)
Theorem delete_of_unknown_document_succeeds (self : Self) (id : string)
    (delete_from_docstore : bool) (w : World) :
  ds_get_ref_doc_info (docstore (storage_context w)) id = None ->
  (forall s, (vs_delete s id).1 = Ok tt) ->
  (forall d, ds_get_ref_doc_info d id = None ->
             (ds_delete_ref_doc d id false).1 = Ok tt) ->
  (forall x, (ixs_add_index_struct x (index_struct w)).1 = Ok tt) ->
  (forall l, l ∈ map snd (vector_stores (storage_context w)) ->
             is_Some (heap w !! l)) ->
  is_Some (heap w !! _vector_store self) ->
  let o := delete_ref_doc self id delete_from_docstore w in
  result o = Ok tt
  /\ calls o
     = concat (store_pass self w id
                 <$> map snd (vector_stores (storage_context w)))
       ++ (if delete_from_docstore then [CallDeleteRefDoc id false] else [])
       ++ [CallAddIndexStruct]
  /\ index_struct (world o) = index_struct w.
Proof.
  intros Hmiss Hdel Hdoc Hixs Hlive Hprim. cbn zeta.
  unfold delete_ref_doc.
  rewrite bind_unfold. cbn [get_vector_stores].
  change (get_vector_stores w)
    with (mkOutcome (Ok (vector_stores (storage_context w))) w []).
  cbn [result world calls]. unfold prepend at 1. cbn [app].
  destruct (delete_loop_missing self id
              (map snd (vector_stores (storage_context w))) w
              Hmiss Hdel Hlive Hprim) as (h & Hh & Hrun).
  rewrite bind_unfold, Hrun. cbn [result world calls].
  destruct delete_from_docstore.
  - rewrite bind_unfold, call_delete_ref_doc_run.
    cbn -[call_add_index_struct]. rewrite (Hdoc _ Hmiss).
    rewrite call_add_index_struct_run. cbn. by rewrite Hixs.
  - rewrite bind_unfold. cbn -[call_add_index_struct].
    rewrite call_add_index_struct_run. cbn. by rewrite Hixs.
Qed.

(** C5: construction with an image embedding model that is not a
    multi-modal one fails at once with an assertion error, before the
    storage context is set up or any store is touched; and building
    the index from a vector store that does not retain text fails at
    once with a value error. *)
Theorem construction_rejects_bad_configuration
    (VectorStoreIndex__init__ :
       EmbedModel -> nat -> option (list Node) -> option IndexStruct ->
       option EmbedModel -> bool -> bool -> bool -> M Self)
    (nodes : option (list Node)) (index_struct : option IndexStruct)
    (service_context : option EmbedModel)
    (storage_context : option StorageContext)
    (use_async store_nodes_override show_progress : bool)
    (image_vector_store : option nat) (image_embed_model : EmbedType)
    (vector_store : nat) (w : World) :
  (forall model,
     resolve_embed_model image_embed_model = Ok model ->
     isinstance_MultiModalEmbedding model = false ->
     __init__ VectorStoreIndex__init__ nodes index_struct service_context
              storage_context use_async store_nodes_override show_progress
              image_vector_store image_embed_model w
     = mkOutcome (Raise AssertionError) w [])
  /\ (forall s,
        heap w !! vector_store = Some s ->
        stores_text s = false ->
        from_vector_store VectorStoreIndex__init__ vector_store
                          service_context image_vector_store
                          image_embed_model w
        = mkOutcome
            (Raise (ValueError
               "Cannot initialize from a vector store that does not store text."))
            w []).
Proof.
  split.
  - intros model Hres Hmm. unfold __init__.
    rewrite bind_unfold, Hres. cbn [lift ret result world calls].
    rewrite bind_unfold. unfold assert at 1 2 3. by rewrite Hmm.
  - intros s Hs Hst. unfold from_vector_store, deref.
    rewrite !bind_unfold. cbn. rewrite Hs. cbn. by rewrite Hst.
Qed.

End Properties.

(** ** Further properties of the methods *)

Section Further.
Context `{B : Backends}.

(** *** The embedding methods *)

Lemma get_node_with_embedding_of_shape v self nodes sp is_image :
  get_node_with_embedding_of v self nodes sp is_image
  = get_node_with_embedding_by v self nodes sp is_image.
Proof. by destruct v, is_image. Qed.

Lemma strip_set_embedding (e : option Embedding) (n : Node) :
  strip (set_embedding e (copy n)) = strip n.
Proof. reflexivity. Qed.

Lemma attach_all_Forall2 (m : gmap string Embedding) (nodes : list Node) :
  Forall (fun n => is_Some (m !! node_id n)) nodes ->
  Forall2 (fun n r => embedding r = m !! node_id n
                      /\ is_Some (embedding r))
          nodes
          ((fun n => set_embedding (m !! node_id n) (copy n)) <$> nodes).
Proof.
  induction 1 as [|n rest Hn _ IH]; cbn; constructor; [by split|done].
Qed.

(** X1: an embedding method that returns has made one embedding call, on
    the whole list and with the model of the modality, has touched
    nothing, and returns one copy per node, in order: each copy is the
    node with the vector the embedding call gave for its id. *)
Theorem embedding_returns_one_copy_per_node (v : Variant) (self : Self)
    (nodes : list Node) (show_progress is_image : bool) (w : World)
    (en : list Node) :
  let o := get_node_with_embedding_of v self nodes show_progress
                                      is_image w in
  result o = Ok en ->
  world o = w
  /\ calls o = [CallEmbed v is_image nodes]
  /\ length en = length nodes
  /\ strip <$> en = strip <$> nodes
  /\ exists m,
       sel_embed v is_image nodes (model_for self is_image) show_progress
       = Ok m
       /\ Forall2 (fun n r => embedding r = m !! node_id n
                              /\ is_Some (embedding r))
                  nodes en.
Proof.
  cbn zeta.
  rewrite get_node_with_embedding_of_shape, get_node_with_embedding_run.
  cbn [result world calls].
  intros (m & Hm & -> & Hall)%embedded_ok.
  split_and!; [done|done|by rewrite length_fmap| |].
  - rewrite <- list_fmap_compose. by apply list_fmap_ext.
  - exists m. split; [done|]. by apply attach_all_Forall2.
Qed.

Lemma attach_all_first_missing (m : gmap string Embedding)
    (pre post : list Node) (n : Node) :
  Forall (fun x => is_Some (m !! node_id x)) pre ->
  m !! node_id n = None ->
  attach_all m (pre ++ n :: post) = Raise (KeyError (node_id n)).
Proof.
  intros Hpre Hn. induction Hpre as [|x pre [e Hx] _ IH]; cbn.
  - by rewrite Hn.
  - by rewrite Hx, IH.
Qed.

(** X2: when the embedding call answers with a map that lacks the id of a
    node, the embedding method raises [KeyError] for the first such
    node of the list, after the embedding call and without touching
    anything. *)
Theorem embedding_raises_key_error_at_first_missing (v : Variant)
    (self : Self) (pre post : list Node) (n : Node)
    (show_progress is_image : bool) (w : World)
    (m : gmap string Embedding) :
  sel_embed v is_image (pre ++ n :: post) (model_for self is_image)
            show_progress = Ok m ->
  Forall (fun x => is_Some (m !! node_id x)) pre ->
  m !! node_id n = None ->
  get_node_with_embedding_of v self (pre ++ n :: post) show_progress
                             is_image w
  = mkOutcome (Raise (KeyError (node_id n))) w
              [CallEmbed v is_image (pre ++ n :: post)].
Proof.
  intros Hm Hpre Hn.
  rewrite get_node_with_embedding_of_shape, get_node_with_embedding_run.
  unfold embedded. rewrite Hm.
  by rewrite (attach_all_first_missing m pre post n Hpre Hn).
Qed.

(** *** The protocol of a successful insertion *)

(** X3: a successful insertion of a non-empty batch calls the text
    embedder, the add of the primary store, the image embedder and the
    add of the image store, once each and in that order, before any
    mirror call.  Each store is given its partition in the order of
    the batch, every copy with an embedding; a partition that is
    empty is embedded and added all the same, as an empty list. *)
Theorem insert_calls_both_stores_once (v : Variant) (self : Self)
    (nodes : list Node) (show_progress : bool) (kw : Kwargs) (w : World) :
  nodes <> [] ->
  result (insert_by v self nodes show_progress kw w) = Ok tt ->
  exists primary secondary text_nodes image_nodes rest,
    dict_get (registry w) DEFAULT_VECTOR_STORE = Some primary
    /\ dict_get (registry w) image_namespace = Some secondary
    /\ calls (insert_by v self nodes show_progress kw w)
       = [CallEmbed v false (filter has_text nodes);
          CallAdd v primary text_nodes kw;
          CallEmbed v true (filter isinstance_ImageNode nodes);
          CallAdd v secondary image_nodes kw] ++ rest
    /\ strip <$> text_nodes = strip <$> filter has_text nodes
    /\ strip <$> image_nodes = strip <$> filter isinstance_ImageNode nodes
    /\ Forall (fun n => is_Some (embedding n)) (text_nodes ++ image_nodes)
    /\ Forall (fun c => is_mirror_call c = true) rest.
Proof.
  intros Hne Hok.
  destruct (insert_ok_inv v self nodes show_progress kw w Hne Hok)
    as (tn & tids & inn & iids & primary & secondary & s0 & s1 & st
        & Et & Ep & Hp & Ea0 & Ei & Es & Hs & Ea1 & Hst & Hrun).
  rewrite Hrun. cbn [prepend calls].
  rewrite text_partition_filter in *. rewrite image_partition_filter in *.
  apply embedded_ok in Et as (mt & _ & Etn & Hallt).
  apply embedded_ok in Ei as (mi & _ & Einn & Halli).
  exists primary, secondary, tn, inn. eexists.
  split_and!; [done|done|reflexivity|..].
  - rewrite Etn, <- list_fmap_compose. by apply list_fmap_ext.
  - rewrite Einn, <- list_fmap_compose. by apply list_fmap_ext.
  - rewrite Etn, Einn. apply Forall_app. split; apply Forall_fmap.
    + eapply Forall_impl; [exact Hallt|]. by intros n Hn.
    + eapply Forall_impl; [exact Halli|]. by intros n Hn.
  - cbn zeta.
    destruct (negb (stores_text st) || _store_nodes_override self);
      [|by constructor].
    match goal with
    | |- context [for_each ?ps mirror_one ?w2] =>
        destruct (mirror_loop_run ps w2) as (_ & _ & _ & Hc & _)
    end.
    eapply Forall_impl; [exact Hc|].
    intros c (p & _ & Hcp). unfold mirror_calls in Hcp.
    apply elem_of_cons in Hcp as [->|Hcp]; [done|].
    by apply list_elem_of_singleton in Hcp as ->.
Qed.

(** *** What an insertion leaves alone *)

Lemma persist_heap v self sp kw is_image namespace part w :
  let o := persist_outcome v self sp kw is_image namespace part w in
  length (heap (world o)) = length (heap w)
  /\ (forall l, dict_get (registry w) namespace <> Some l ->
                heap (world o) !! l = heap w !! l)
  /\ Forall (fun c => is_deletion_call c = false) (calls o).
Proof.
  cbn zeta.
  destruct (persist_cases v self sp kw is_image namespace part w)
    as [(_ & -> & ->)|(en & l & s & _ & Hns & _ & -> & -> & _)].
  - split_and!; [done|done|by repeat constructor].
  - cbn. rewrite length_insert. split_and!; [done| |by repeat constructor].
    intros l' Hl'. apply list_lookup_insert_ne. unfold registry in Hl'.
    congruence.
Qed.

Lemma mirror_step_frame self all_nodes all_new_ids w :
  let o := mirror_step self all_nodes all_new_ids w in
  heap (world o) = heap w
  /\ registry (world o) = registry w
  /\ index_store (storage_context (world o))
     = index_store (storage_context w)
  /\ Forall (fun c => is_deletion_call c = false) (calls o).
Proof.
  cbn zeta. rewrite mirror_step_run.
  destruct (heap w !! _vector_store self) as [st|];
    [|by split_and!; [..|constructor]].
  destruct (negb (stores_text st) || _store_nodes_override self);
    [|by split_and!; [..|constructor]].
  destruct (mirror_loop_run (zip all_nodes all_new_ids) w)
    as (Hh & Hv & Hx & Hc & _).
  split_and!; [done..|].
  eapply Forall_impl; [exact Hc|].
  intros c (p & _ & Hcp). unfold mirror_calls in Hcp.
  apply elem_of_cons in Hcp as [->|Hcp]; [done|].
  by apply list_elem_of_singleton in Hcp as ->.
Qed.

(** X4: however it ends, an insertion leaves the registry of vector
    stores and the index store as they were, creates and removes no
    store, changes no store but the ones registered under the default
    namespace and under the image namespace, and makes none of the
    calls of a deletion. *)
Theorem insert_touches_only_its_two_stores (v : Variant) (self : Self)
    (nodes : list Node) (show_progress : bool) (kw : Kwargs) (w : World) :
  let o := insert_by v self nodes show_progress kw w in
  registry (world o) = registry w
  /\ index_store (storage_context (world o))
     = index_store (storage_context w)
  /\ length (heap (world o)) = length (heap w)
  /\ (forall l,
        dict_get (registry w) DEFAULT_VECTOR_STORE <> Some l ->
        dict_get (registry w) image_namespace <> Some l ->
        heap (world o) !! l = heap w !! l)
  /\ Forall (fun c => is_deletion_call c = false) (calls o).
Proof.
  cbn zeta. rewrite insert_by_shape.
  destruct nodes as [|n0 rest]; [by split_and!; [..|constructor]|].
  rewrite add_nodes_run by done. cbn zeta.
  pose proof (persist_frame v self show_progress kw false
                DEFAULT_VECTOR_STORE (text_partition (n0 :: rest)) w)
    as (Hs1 & _ & _).
  pose proof (persist_heap v self show_progress kw false
                DEFAULT_VECTOR_STORE (text_partition (n0 :: rest)) w)
    as (Hl1 & Hh1 & Hc1).
  destruct (persist_outcome v self show_progress kw false _ _ w)
    as [r1 w1 c1].
  cbn [result world calls] in *.
  assert (Hreg1 : registry w1 = registry w) by (unfold registry; congruence).
  destruct r1 as [[tn tids]|e];
    [|cbn; split_and!; [done|congruence|done|by intros l ? _; apply Hh1
                        |done]].
  pose proof (persist_frame v self show_progress kw true image_namespace
                (image_partition (n0 :: rest)) w1) as (Hs2 & _ & _).
  pose proof (persist_heap v self show_progress kw true image_namespace
                (image_partition (n0 :: rest)) w1) as (Hl2 & Hh2 & Hc2).
  destruct (persist_outcome v self show_progress kw true _ _ w1)
    as [r2 w2 c2].
  cbn [result world calls] in *.
  assert (Hreg2 : registry w2 = registry w) by (unfold registry; congruence).
  assert (Hh : forall l,
             dict_get (registry w) DEFAULT_VECTOR_STORE <> Some l ->
             dict_get (registry w) image_namespace <> Some l ->
             heap w2 !! l = heap w !! l).
  { intros l Hd Hi. rewrite Hh2 by (by rewrite Hreg1). by apply Hh1. }
  destruct r2 as [[inn iids]|e].
  - destruct (mirror_step_frame self (tn ++ inn) (tids ++ iids) w2)
      as (Hhm & Hrm & Hxm & Hcm).
    unfold prepend. cbn [result world calls].
    rewrite Hhm, Hrm, Hxm.
    split_and!; [done|congruence|congruence|done|].
    by repeat (apply Forall_app; split).
  - cbn. split_and!; [done|congruence|congruence|done|].
    by apply Forall_app.
Qed.

(** *** Failures of the stores during an insertion *)

(** X5: a failure of a store's add ends the insertion with that failure
    and nothing is mirrored.  When the add of the primary store
    raises, the image partition is not even embedded.  When the add
    of the image store raises, the text partition stays in the
    primary store, and neither partition reaches the index structure
    or the document store. *)
Theorem add_failure_stops_insertion (v : Variant) (self : Self)
    (nodes : list Node) (show_progress : bool) (kw : Kwargs) (w : World)
    (e : Exn) (text_nodes : list Node) (primary : nat) (s0 : VectorStore) :
  nodes <> [] ->
  embedded v self show_progress false (text_partition nodes)
    = Ok text_nodes ->
  dict_get (registry w) DEFAULT_VECTOR_STORE = Some primary ->
  heap w !! primary = Some s0 ->
  let w1 := with_heap (<[primary := (sel_add v s0 text_nodes kw).2]>
                         (heap w)) w in
  ((sel_add v s0 text_nodes kw).1 = Raise e ->
   insert_by v self nodes show_progress kw w
   = mkOutcome (Raise e) w1
       [CallEmbed v false (text_partition nodes);
        CallAdd v primary text_nodes kw])
  /\ (forall new_text_ids image_nodes secondary s1,
        (sel_add v s0 text_nodes kw).1 = Ok new_text_ids ->
        embedded v self show_progress true (image_partition nodes)
          = Ok image_nodes ->
        dict_get (registry w) image_namespace = Some secondary ->
        heap w1 !! secondary = Some s1 ->
        (sel_add v s1 image_nodes kw).1 = Raise e ->
        insert_by v self nodes show_progress kw w
        = mkOutcome (Raise e)
            (with_heap (<[secondary := (sel_add v s1 image_nodes kw).2]>
                          (heap w1)) w)
            [CallEmbed v false (text_partition nodes);
             CallAdd v primary text_nodes kw;
             CallEmbed v true (image_partition nodes);
             CallAdd v secondary image_nodes kw]).
Proof.
  intros Hne Et Ep Hp w1. unfold registry in *.
  rewrite insert_by_shape, add_nodes_run by done.
  unfold persist_outcome. rewrite Et, Ep, Hp. cbn [result world calls].
  split.
  - by intros ->.
  - intros tids inn secondary s1 -> Ei Es Hs Hadd.
    cbn [result world calls]. rewrite Ei. cbn [storage_context with_heap].
    rewrite Es. fold w1. rewrite Hs. cbn. by rewrite Hadd.
Qed.

(** X6: a namespace that is not registered makes the insertion raise
    [KeyError], but only once the partition has been embedded.
    Without a store under the default namespace nothing has been
    touched; without a store under the image namespace the text
    partition is already in the primary store. *)
Theorem missing_namespace_raises_key_error (v : Variant) (self : Self)
    (nodes : list Node) (show_progress : bool) (kw : Kwargs) (w : World)
    (text_nodes : list Node) :
  nodes <> [] ->
  embedded v self show_progress false (text_partition nodes)
    = Ok text_nodes ->
  (dict_get (registry w) DEFAULT_VECTOR_STORE = None ->
   insert_by v self nodes show_progress kw w
   = mkOutcome (Raise (KeyError DEFAULT_VECTOR_STORE)) w
       [CallEmbed v false (text_partition nodes)])
  /\ (forall primary s0 new_text_ids image_nodes,
        dict_get (registry w) DEFAULT_VECTOR_STORE = Some primary ->
        heap w !! primary = Some s0 ->
        (sel_add v s0 text_nodes kw).1 = Ok new_text_ids ->
        embedded v self show_progress true (image_partition nodes)
          = Ok image_nodes ->
        dict_get (registry w) image_namespace = None ->
        insert_by v self nodes show_progress kw w
        = mkOutcome (Raise (KeyError image_namespace))
            (with_heap (<[primary := (sel_add v s0 text_nodes kw).2]>
                          (heap w)) w)
            [CallEmbed v false (text_partition nodes);
             CallAdd v primary text_nodes kw;
             CallEmbed v true (image_partition nodes)]).
Proof.
  intros Hne Et. unfold registry.
  rewrite insert_by_shape, add_nodes_run by done.
  unfold persist_outcome. rewrite Et. split.
  - by intros ->.
  - intros primary s0 tids inn -> -> -> Ei Es.
    cbn [result world calls]. rewrite Ei. cbn [storage_context with_heap].
    by rewrite Es.
Qed.

(** *** The mirror writes *)

Lemma elem_of_concat {A} (x : A) (ls : list (list A)) :
  x ∈ concat ls <-> exists l, x ∈ l /\ l ∈ ls.
Proof.
  induction ls as [|l0 ls IH]; cbn.
  - split; [by intros H%not_elem_of_nil|].
    by intros (l & _ & H%not_elem_of_nil).
  - rewrite elem_of_app, IH. split.
    + intros [H|(l & H1 & H2)]; [exists l0|exists l]; split; try done.
      * left.
      * by right.
    + intros (l & H1 & [->|H2]%elem_of_cons); [by left|right].
      by exists l.
Qed.

Lemma mirror_one_world (p : Node * string) (w : World) :
  let o := mirror_one p w in
  index_struct (world o) = registered (index_struct w) [p]
  /\ ((docstore (storage_context (world o)) = docstore (storage_context w)
       /\ is_ok (result o) = false)
      \/ docstore (storage_context (world o))
         = upserted (docstore (storage_context w)) [p]).
Proof.
  destruct p as [node id]. unfold mirror_one, registered, upserted.
  fold (strip node). rewrite bind_unfold, call_add_node_run.
  cbn [result world calls fst snd foldl].
  destruct (is_add_node (index_struct w) (strip node) id).1 as [[]|e].
  - rewrite call_add_documents_run. cbn. split; [done|by right].
  - cbn. split; [done|by left].
Qed.

(** However the mirroring loop ends, the index structure holds the
    registrations of a prefix of the pairs, and the document store
    the upserts of the same prefix or of one pair fewer. *)
Lemma mirror_loop_in_step (pairs : list (Node * string)) (w : World) :
  let o := for_each pairs mirror_one w in
  exists i j,
    j <= i <= S j
    /\ index_struct (world o) = registered (index_struct w) (take i pairs)
    /\ docstore (storage_context (world o))
       = upserted (docstore (storage_context w)) (take j pairs).
Proof.
  revert w. induction pairs as [|p rest IH]; intros w.
  - exists 0, 0. cbn. split; [lia|done].
  - cbn [for_each]. rewrite bind_unfold.
    destruct (mirror_one_world p w) as [Hi Hd].
    destruct (mirror_one_run p w) as (_ & _ & _ & _ & Hok).
    destruct (result (mirror_one p w)) as [[]|e] eqn:Er.
    + destruct (Hok eq_refl) as (_ & _ & Hd').
      destruct (IH (world (mirror_one p w))) as (i & j & Hij & Hi' & Hj').
      exists (S i), (S j). unfold prepend. cbn [world take].
      split; [lia|]. rewrite Hi', Hj', Hi, Hd'. done.
    + cbn [world]. destruct Hd as [[Hd _]|Hd].
      * exists 1, 0. split; [lia|]. by rewrite Hi, Hd.
      * exists 1, 1. split; [lia|]. by rewrite Hi, Hd.
Qed.

(** X7: however an insertion ends, the index structure holds the
    registrations of a prefix of a list of (node, id) pairs whose
    nodes all come from the batch, and the document store holds the
    upserts of the same prefix or of one pair fewer: a node is
    registered before it is upserted, and what has been written stays
    when a later write raises. *)
Theorem mirror_writes_stay_in_step (v : Variant) (self : Self)
    (nodes : list Node) (show_progress : bool) (kw : Kwargs) (w : World) :
  let o := insert_by v self nodes show_progress kw w in
  exists (pairs : list (Node * string)) i j,
    Forall (fun p => from_batch nodes p.1) pairs
    /\ j <= i <= S j
    /\ index_struct (world o) = registered (index_struct w) (take i pairs)
    /\ docstore (storage_context (world o))
       = upserted (docstore (storage_context w)) (take j pairs).
Proof.
  cbn zeta.
  assert (Hnone : forall o : Outcome unit,
             index_struct (world o) = index_struct w ->
             storage_context (world o) = storage_context w ->
             exists (pairs : list (Node * string)) i j,
               Forall (fun p => from_batch nodes p.1) pairs
               /\ j <= i <= S j
               /\ index_struct (world o)
                  = registered (index_struct w) (take i pairs)
               /\ docstore (storage_context (world o))
                  = upserted (docstore (storage_context w)) (take j pairs)).
  { intros o Hi Hs. exists [], 0, 0. rewrite Hi, Hs.
    split_and!; [constructor|lia|lia|done|done]. }
  rewrite insert_by_shape.
  destruct nodes as [|n0 rest]; [by apply Hnone|].
  rewrite add_nodes_run by done. cbn zeta.
  set (nodes := n0 :: rest) in *.
  assert (Htp : forall n, n ∈ text_partition nodes
                          -> n ∈ nodes /\ kept n = true).
  { intros n. rewrite text_partition_filter, list_elem_of_filter.
    unfold kept. intros [Ht%Is_true_true ?]. rewrite Ht.
    by rewrite orb_true_r. }
  assert (Hip : forall n, n ∈ image_partition nodes
                          -> n ∈ nodes /\ kept n = true).
  { intros n. rewrite image_partition_filter, list_elem_of_filter.
    unfold kept. intros [Hi%Is_true_true ?]. by rewrite Hi. }
  pose proof (persist_frame v self show_progress kw false
                DEFAULT_VECTOR_STORE (text_partition nodes) w)
    as (Hs1 & Hi1 & _).
  destruct (persist_inventory v self show_progress kw false
              DEFAULT_VECTOR_STORE (text_partition nodes) w nodes Htp)
    as [_ Hr1].
  destruct (persist_outcome v self show_progress kw false _ _ w)
    as [r1 w1 c1].
  cbn [result world calls] in *.
  destruct r1 as [[tn tids]|e]; [|by apply Hnone].
  pose proof (persist_frame v self show_progress kw true image_namespace
                (image_partition nodes) w1) as (Hs2 & Hi2 & _).
  destruct (persist_inventory v self show_progress kw true image_namespace
              (image_partition nodes) w1 nodes Hip) as [_ Hr2].
  destruct (persist_outcome v self show_progress kw true _ _ w1)
    as [r2 w2 c2].
  cbn [result world calls] in *.
  destruct r2 as [[inn iids]|e]; [|apply Hnone; cbn; congruence].
  unfold prepend. cbn [world]. rewrite mirror_step_run.
  destruct (heap w2 !! _vector_store self) as [st|];
    [|apply Hnone; cbn; congruence].
  destruct (negb (stores_text st) || _store_nodes_override self);
    [|apply Hnone; cbn; congruence].
  destruct (mirror_loop_in_step (zip (tn ++ inn) (tids ++ iids)) w2)
    as (i & j & Hij & Hi & Hj).
  exists (zip (tn ++ inn) (tids ++ iids)), i, j.
  split_and!; [|lia|lia|congruence|congruence].
  apply Forall_forall. intros [n id] Hp. cbn.
  apply elem_of_zip_l in Hp.
  apply elem_of_app in Hp as [Hn|Hn]; [by eapply Hr1|by eapply Hr2].
Qed.

Lemma mirror_calls_lookup (pairs : list (Node * string)) (k : nat)
    (p : Node * string) :
  pairs !! k = Some p ->
  concat (mirror_calls <$> pairs) !! (2 * k)
  = Some (CallAddNode (strip p.1) p.2).
Proof.
  revert k. induction pairs as [|q rest IH]; intros [|k]; try done.
  - by intros [= ->].
  - intros H. replace (2 * S k) with (S (S (2 * k))) by lia.
    cbn [fmap list_fmap concat mirror_calls app lookup list_lookup].
    by apply IH.
Qed.

(** X8: with mirroring active and stores whose add returns one id per
    node, a successful insertion registers an image node with a
    caption twice in the index structure.  The second and the fourth
    call of the run are the adds of the embedded text partition to
    the primary store and of the embedded image partition to the
    image store.  With the node at position [i] of the text partition
    and at position [j] of the image partition, the call at position
    [4 + 2 * i] registers its copy without embedding under the id at
    position [i] of what the primary store's add returned, and the
    call at the later position [4 + 2 * (length text_nodes + j)]
    registers the same copy under the id at position [j] of what the
    image store's add returned. *)
Theorem captioned_image_is_registered_twice (v : Variant) (self : Self)
    (nodes : list Node) (show_progress : bool) (kw : Kwargs) (w : World)
    (n : Node) :
  (forall s ns kw ids,
     (store_add_of v s ns kw).1 = Ok ids -> length ids = length ns) ->
  mirroring self w = true ->
  n ∈ nodes -> isinstance_ImageNode n = true -> has_text n = true ->
  let o := insert_by v self nodes show_progress kw w in
  result o = Ok tt ->
  exists text_nodes new_text_ids image_nodes new_img_ids
         primary secondary s0 s1 mt mi i j id_text id_image stripped,
    dict_get (registry w) DEFAULT_VECTOR_STORE = Some primary
    /\ dict_get (registry w) image_namespace = Some secondary
    /\ text_embedder_of v (text_partition nodes) (_embed_model self)
                        show_progress = Ok mt
    /\ image_embedder_of v (image_partition nodes)
                         (_image_embed_model self) show_progress = Ok mi
    /\ Forall2 (copy_embedded_by mt) (text_partition nodes) text_nodes
    /\ Forall2 (copy_embedded_by mi) (image_partition nodes) image_nodes
    /\ calls o !! 1 = Some (CallAdd v primary text_nodes kw)
    /\ calls o !! 3 = Some (CallAdd v secondary image_nodes kw)
    /\ heap w !! primary = Some s0
    /\ (store_add_of v s0 text_nodes kw).1 = Ok new_text_ids
    /\ <[primary := (store_add_of v s0 text_nodes kw).2]> (heap w)
         !! secondary = Some s1
    /\ (store_add_of v s1 image_nodes kw).1 = Ok new_img_ids
    /\ text_partition nodes !! i = Some n
    /\ new_text_ids !! i = Some id_text
    /\ image_partition nodes !! j = Some n
    /\ new_img_ids !! j = Some id_image
    /\ is_copy_with None n stripped
    /\ i < length text_nodes
    /\ calls o !! (4 + 2 * i) = Some (CallAddNode stripped id_text)
    /\ calls o !! (4 + 2 * (length text_nodes + j))
       = Some (CallAddNode stripped id_image).
Proof.
  intros Hlen Hon Hin Hi Ht o Hok. subst o.
  assert (Hne : nodes <> []) by (intros ->; by apply not_elem_of_nil in Hin).
  destruct (insert_ok_inv v self nodes show_progress kw w Hne Hok)
    as (tn & tids & inn & iids & primary & secondary & s0 & s1 & st
        & Et & Ep & Hp & Ea0 & Ei & Es & Hs & Ea1 & Hst & Hrun).
  assert (Hadd : sel_add v = store_add_of v) by by destruct v.
  rewrite Hadd in *.
  pose proof (Hlen _ _ _ _ Ea0) as Hl0.
  pose proof (Hlen _ _ _ _ Ea1) as Hl1.
  apply embedded_ok in Et as (mt & Emt & Etn & Hallt).
  apply embedded_ok in Ei as (mi & Emi & Einn & Halli).
  assert (Hnt : n ∈ text_partition nodes).
  { rewrite text_partition_filter, list_elem_of_filter.
    by rewrite Is_true_true. }
  assert (Hni : n ∈ image_partition nodes).
  { rewrite image_partition_filter, list_elem_of_filter.
    by rewrite Is_true_true. }
  apply list_elem_of_lookup in Hnt as [i Hti].
  apply list_elem_of_lookup in Hni as [j Hij].
  assert (Htni : tn !! i = Some (set_embedding (mt !! node_id n) (copy n))).
  { by rewrite Etn, list_lookup_fmap, Hti. }
  assert (Hinj : inn !! j = Some (set_embedding (mi !! node_id n) (copy n))).
  { by rewrite Einn, list_lookup_fmap, Hij. }
  assert (Hi_lt : i < length tn) by by eapply lookup_lt_Some.
  destruct (lookup_lt_is_Some_2 tids i) as [id_text Hidt].
  { by rewrite Hl0. }
  destruct (lookup_lt_is_Some_2 iids j) as [id_image Hidi].
  { rewrite Hl1. by eapply lookup_lt_Some. }
  set (w1 := with_heap (<[primary := (store_add_of v s0 tn kw).2]>
                          (heap w)) w) in *.
  set (w2 := with_heap (<[secondary := (store_add_of v s1 inn kw).2]>
                          (<[primary := (store_add_of v s0 tn kw).2]>
                             (heap w))) w) in *.
  assert (Hm1 : mirroring self w1 = true).
  { unfold w1. erewrite mirroring_with_heap; [done|done|].
    rewrite <- Hadd. apply sel_add_stores_text. }
  assert (Hm2 : mirroring self w2 = true).
  { change (mirroring self
              (with_heap (<[secondary := (store_add_of v s1 inn kw).2]>
                            (heap w1)) w1) = true).
    erewrite mirroring_with_heap; [done|done|].
    rewrite <- Hadd. apply sel_add_stores_text. }
  assert (Hgate : negb (stores_text st) || _store_nodes_override self
                  = true).
  { unfold mirroring in Hm2. cbn in Hm2. by rewrite Hst in Hm2. }
  rewrite Hrun in Hok. rewrite Hgate in Hok, Hrun. cbn zeta in Hok, Hrun.
  destruct (mirror_loop_run (zip (tn ++ inn) (tids ++ iids)) w2)
    as (_ & _ & _ & _ & Hdone).
  destruct (Hdone Hok) as (Hcs & _ & _).
  exists tn, tids, inn, iids, primary, secondary, s0, s1, mt, mi, i, j,
         id_text, id_image, (strip n).
  split_and!; try done.
  - rewrite Etn. by apply attach_all_copies.
  - rewrite Einn. by apply attach_all_copies.
  - by rewrite Hrun.
  - by rewrite Hrun.
  - rewrite Hrun. cbn [prepend calls].
    change (4 + 2 * i) with (S (S (S (S (2 * i))))).
    cbn [app lookup list_lookup]. rewrite Hcs.
    rewrite (mirror_calls_lookup _ i
               (set_embedding (mt !! node_id n) (copy n), id_text));
      [done|].
    rewrite lookup_zip_with.
    rewrite !lookup_app_l by lia.
    by rewrite Htni, Hidt.
  - rewrite Hrun. cbn [prepend calls].
    change (4 + 2 * (length tn + j))
      with (S (S (S (S (2 * (length tn + j)))))).
    cbn [app lookup list_lookup]. rewrite Hcs.
    rewrite (mirror_calls_lookup _ (length tn + j)
               (set_embedding (mi !! node_id n) (copy n), id_image));
      [done|].
    rewrite lookup_zip_with, !lookup_app_r by lia.
    replace (length tn + j - length tn) with j by lia.
    replace (length tn + j - length tids) with j by lia.
    by rewrite Hinj, Hidi.
Qed.

(** X9: when one store object is registered under both the default and
    the image namespace, a successful insertion adds the text copies
    to it and then the image copies to what that first add left. *)
Theorem shared_store_takes_both_partitions (v : Variant) (self : Self)
    (nodes : list Node) (show_progress : bool) (kw : Kwargs) (w : World)
    (l : nat) (s0 : VectorStore) :
  nodes <> [] ->
  dict_get (registry w) DEFAULT_VECTOR_STORE = Some l ->
  dict_get (registry w) image_namespace = Some l ->
  heap w !! l = Some s0 ->
  let o := insert_by v self nodes show_progress kw w in
  result o = Ok tt ->
  exists text_nodes image_nodes,
    embedded v self show_progress false (text_partition nodes)
      = Ok text_nodes
    /\ embedded v self show_progress true (image_partition nodes)
       = Ok image_nodes
    /\ heap (world o)
       = <[l := (sel_add v (sel_add v s0 text_nodes kw).2
                         image_nodes kw).2]> (heap w).
Proof.
  intros Hne Hd Hi Hl o Hok. subst o. unfold registry in *.
  destruct (insert_ok_inv v self nodes show_progress kw w Hne Hok)
    as (tn & tids & inn & iids & primary & secondary & s0' & s1 & st
        & Et & Ep & Hp & Ea0 & Ei & Es & Hs & Ea1 & Hst & Hrun).
  rewrite Hd in Ep. rewrite Hi in Es. simplify_eq.
  rewrite list_lookup_insert_eq in Hs by (by eapply lookup_lt_Some).
  simplify_eq.
  exists tn, inn. split_and!; [done..|].
  rewrite Hrun. cbn [prepend world]. cbn zeta.
  destruct (negb (stores_text st) || _store_nodes_override self).
  - match goal with
    | |- context [for_each ?ps mirror_one ?w2] =>
        destruct (mirror_loop_run ps w2) as (-> & _)
    end.
    apply list_insert_insert_eq.
  - apply list_insert_insert_eq.
Qed.

(** *** Judgments on computations *)

Lemma emits_ret P {A} (a : A) : emits P (ret a).
Proof. intros w. constructor. Qed.

Lemma emits_bind P {A C} (m : M A) (f : A -> M C) :
  emits P m -> (forall a, emits P (f a)) -> emits P (bind m f).
Proof.
  intros Hm Hf w. rewrite bind_unfold.
  destruct (result (m w)); [|apply Hm].
  unfold prepend. cbn. apply Forall_app. split; [apply Hm|apply Hf].
Qed.

Lemma emits_for_each P {A} (xs : list A) (body : A -> M unit) :
  (forall x, emits P (body x)) -> emits P (for_each xs body).
Proof.
  intros Hb. induction xs as [|x rest IH]; [apply emits_ret|].
  cbn [for_each]. by apply emits_bind.
Qed.

Lemma keeps_ret {X} (f : World -> X) {A} (a : A) : keeps f (ret a).
Proof. by intros w. Qed.

Lemma keeps_bind {X} (f : World -> X) {A C} (m : M A) (k : A -> M C) :
  keeps f m -> (forall a, keeps f (k a)) -> keeps f (bind m k).
Proof.
  intros Hm Hk w. rewrite bind_unfold.
  destruct (result (m w)) as [a|e]; [|apply Hm].
  unfold prepend. cbn. by rewrite Hk, Hm.
Qed.

Lemma keeps_for_each {X} (f : World -> X) {A} (xs : list A)
    (body : A -> M unit) :
  (forall x, keeps f (body x)) -> keeps f (for_each xs body).
Proof.
  intros Hb. induction xs as [|x rest IH]; [apply keeps_ret|].
  cbn [for_each]. by apply keeps_bind.
Qed.

(** *** The steps of a deletion *)

Lemma call_index_delete_run id w :
  call_index_delete id w
  = mkOutcome (is_delete (index_struct w) id).1
              (mkWorld (heap w) (storage_context w)
                       (is_delete (index_struct w) id).2)
              [CallIndexDelete id].
Proof.
  unfold call_index_delete. rewrite !bind_unfold. cbn.
  by destruct (is_delete _ _).1.
Qed.

(** What the loop over the stores leaves alone: the storage context
    and the stores that exist with what each one retains. *)
Definition deletion_frame (w : World) : StorageContext * list bool :=
  (storage_context w, flags w).

Lemma call_delete_frame l x :
  keeps deletion_frame (call_delete l x)
  /\ keeps index_struct (call_delete l x)
  /\ forall P, P (CallDelete l x) -> emits P (call_delete l x).
Proof.
  split_and!.
  - intros w. rewrite call_delete_run.
    destruct (heap w !! l) as [s|] eqn:Hl; [|done].
    unfold deletion_frame, flags. cbn. f_equal.
    eapply flags_insert; [done|]. apply stores_text_delete.
  - intros w. rewrite call_delete_run. by destruct (heap w !! l).
  - intros P Hp w. rewrite call_delete_run.
    destruct (heap w !! l); by repeat constructor.
Qed.

Lemma cleanup_gate_frame self w :
  world (cleanup_gate self w) = w /\ calls (cleanup_gate self w) = [].
Proof.
  unfold cleanup_gate. destruct (_store_nodes_override self); [done|].
  rewrite primary_stores_text_run. by destruct (heap w !! _).
Qed.

Lemma cleanup_one_frame self x :
  keeps deletion_frame (cleanup_one self x)
  /\ forall P,
       P (CallIndexDelete x) -> P (CallDelete (_vector_store self) x) ->
       emits P (cleanup_one self x).
Proof.
  destruct (call_delete_frame (_vector_store self) x) as (Hk & _ & He).
  split.
  - apply keeps_bind; [|done].
    intros w. by rewrite call_index_delete_run.
  - intros P Hi Hd. apply emits_bind; [|by intros; apply He].
    intros w. rewrite call_index_delete_run. by repeat constructor.
Qed.

Lemma delete_from_store_frame self id l :
  keeps deletion_frame (delete_from_store self id l)
  /\ emits (deletion_call_for id) (delete_from_store self id l)
  /\ emits (fun c => c <> CallAddIndexStruct) (delete_from_store self id l).
Proof.
  destruct (call_delete_frame l id) as (Hk & _ & He).
  assert (Hgk : forall X (f : World -> X), keeps f (cleanup_gate self)).
  { intros X f w. by destruct (cleanup_gate_frame self w) as [-> _]. }
  assert (Hge : forall P, emits P (cleanup_gate self)).
  { intros P w. destruct (cleanup_gate_frame self w) as [_ ->].
    constructor. }
  split_and!.
  - apply keeps_bind; [done|]. intros _.
    apply keeps_bind; [done|]. intros [|]; [|apply keeps_ret].
    apply keeps_bind; [by intros w|].
    intros [info|]; [|apply keeps_ret].
    apply keeps_for_each. intros x. apply cleanup_one_frame.
  - apply emits_bind; [by apply He|]. intros _.
    apply emits_bind; [done|]. intros [|]; [|apply emits_ret].
    apply emits_bind; [by intros w; repeat constructor|].
    intros [info|]; [|apply emits_ret].
    apply emits_for_each. intros x. by apply cleanup_one_frame.
  - apply emits_bind; [by apply He|]. intros _.
    apply emits_bind; [done|]. intros [|]; [|apply emits_ret].
    apply emits_bind; [by intros w; repeat constructor|].
    intros [info|]; [|apply emits_ret].
    apply emits_for_each. intros x. by apply cleanup_one_frame.
Qed.

Lemma keeps_compose {X Y} (f : World -> X) (g : X -> Y) {A} (m : M A) :
  keeps f m -> keeps (fun w => g (f w)) m.
Proof. intros Hf w. by rewrite Hf. Qed.

Lemma call_delete_ref_doc_frame id raise_error :
  keeps heap (call_delete_ref_doc id raise_error)
  /\ keeps registry (call_delete_ref_doc id raise_error)
  /\ keeps (fun w => index_store (storage_context w))
           (call_delete_ref_doc id raise_error)
  /\ keeps index_struct (call_delete_ref_doc id raise_error)
  /\ forall P, P (CallDeleteRefDoc id raise_error) ->
               emits P (call_delete_ref_doc id raise_error).
Proof.
  split_and!; [intros w..|intros P Hp w];
    rewrite call_delete_ref_doc_run; cbn; [done..|by repeat constructor].
Qed.

Lemma call_add_index_struct_frame :
  keeps heap call_add_index_struct
  /\ keeps registry call_add_index_struct
  /\ keeps (fun w => docstore (storage_context w)) call_add_index_struct
  /\ keeps index_struct call_add_index_struct
  /\ forall P, P CallAddIndexStruct -> emits P call_add_index_struct.
Proof.
  split_and!; [intros w..|intros P Hp w];
    rewrite call_add_index_struct_run; cbn; [done..|by repeat constructor].
Qed.

(** A deletion is the loop over the stores registered when it starts,
    then the removal from the document store, then the hand-over to
    the index store. *)
Lemma delete_ref_doc_shape self id delete_from_docstore w :
  delete_ref_doc self id delete_from_docstore w
  = bind (for_each (map snd (registry w)) (delete_from_store self id))
         (fun _ =>
            bind (if delete_from_docstore
                  then call_delete_ref_doc id false
                  else ret tt)
                 (fun _ => call_add_index_struct)) w.
Proof.
  unfold delete_ref_doc. rewrite bind_unfold.
  change (get_vector_stores w)
    with (mkOutcome (Ok (vector_stores (storage_context w))) w []).
  cbn [result world calls]. unfold prepend at 1. cbn [app].
  unfold registry.
  match goal with |- _ = ?x => by destruct x end.
Qed.

Lemma delete_loop_keeps self id (ls : list nat) :
  keeps deletion_frame (for_each ls (delete_from_store self id)).
Proof. apply keeps_for_each. intros l. apply delete_from_store_frame. Qed.

(** X10: however it ends, a deletion leaves the registry of vector stores
    as it was and creates and removes no store; it makes no embedding
    call, no add and no mirror call; the document store is only ever
    asked about the logical document to delete, and asked to remove
    it without raising; and without [delete_from_docstore] the
    document store is left as it was. *)
Theorem delete_frame (self : Self) (id : string)
    (delete_from_docstore : bool) (w : World) :
  let o := delete_ref_doc self id delete_from_docstore w in
  registry (world o) = registry w
  /\ flags (world o) = flags w
  /\ Forall (deletion_call_for id) (calls o)
  /\ docstore (storage_context
                 (world (delete_ref_doc self id false w)))
     = docstore (storage_context w).
Proof.
  cbn zeta. rewrite !delete_ref_doc_shape.
  destruct (call_delete_ref_doc_frame id false)
    as (Hdh & Hdr & _ & _ & Hde).
  destruct call_add_index_struct_frame as (Hah & Har & Had & _ & Hae).
  pose proof (delete_loop_keeps self id (map snd (registry w))) as Hloop.
  split_and!.
  - apply keeps_bind.
    + apply (keeps_compose deletion_frame
               (fun p => vector_stores p.1) _ Hloop).
    + intros _. apply keeps_bind; [|done].
      destruct delete_from_docstore; [done|apply keeps_ret].
  - apply keeps_bind.
    + apply (keeps_compose deletion_frame snd _ Hloop).
    + intros _. apply keeps_bind.
      * destruct delete_from_docstore; [|apply keeps_ret].
        apply (keeps_compose heap (fmap stores_text) _ Hdh).
      * intros _. apply (keeps_compose heap (fmap stores_text) _ Hah).
  - apply emits_bind.
    + apply emits_for_each. intros l. apply delete_from_store_frame.
    + intros _. apply emits_bind; [|by intros _; apply Hae].
      destruct delete_from_docstore; [by apply Hde|apply emits_ret].
  - apply (keeps_bind (fun w => docstore (storage_context w))).
    + apply (keeps_compose deletion_frame (fun p => docstore p.1) _ Hloop).
    + intros _. apply keeps_bind; [apply keeps_ret|done].
Qed.

(** X11: the index store is written by the last step of a deletion only:
    either the deletion raised before that step, with the index store
    as it was, or its last call, and no earlier one, handed the index
    structure as the deletion left it to the index store, and the
    deletion ends as that call ends. *)
Theorem index_store_is_updated_last (self : Self) (id : string)
    (delete_from_docstore : bool) (w : World) :
  let o := delete_ref_doc self id delete_from_docstore w in
  (is_ok (result o) = false
   /\ Forall (fun c => c <> CallAddIndexStruct) (calls o)
   /\ index_store (storage_context (world o))
      = index_store (storage_context w))
  \/ (exists pre,
        calls o = pre ++ [CallAddIndexStruct]
        /\ Forall (fun c => c <> CallAddIndexStruct) pre
        /\ result o
           = (ixs_add_index_struct (index_store (storage_context w))
                                   (index_struct (world o))).1
        /\ index_store (storage_context (world o))
           = (ixs_add_index_struct (index_store (storage_context w))
                                   (index_struct (world o))).2).
Proof.
  cbn zeta. rewrite delete_ref_doc_shape, bind_unfold.
  pose proof (keeps_compose deletion_frame (fun p => index_store p.1) _
                (delete_loop_keeps self id (map snd (registry w))) w)
    as Hx1.
  unfold deletion_frame in Hx1. cbn [fst] in Hx1.
  assert (He1 : Forall (fun c => c <> CallAddIndexStruct)
                  (calls (for_each (map snd (registry w))
                                   (delete_from_store self id) w))).
  { apply emits_for_each. intros l. apply delete_from_store_frame. }
  destruct (for_each _ _ w) as [r1 w1 c1]. cbn [result world calls] in *.
  destruct r1 as [[]|e]; [|by left].
  unfold prepend. cbn [result world calls]. rewrite bind_unfold.
  destruct (call_delete_ref_doc_frame id false)
    as (_ & _ & Hdx & Hdi & Hde).
  set (m2 := if delete_from_docstore then call_delete_ref_doc id false
             else ret tt).
  assert (Hx2 : index_store (storage_context (world (m2 w1)))
                = index_store (storage_context w1)).
  { unfold m2. destruct delete_from_docstore; [apply Hdx|done]. }
  assert (He2 : Forall (fun c => c <> CallAddIndexStruct) (calls (m2 w1))).
  { unfold m2. destruct delete_from_docstore; [by apply Hde|constructor]. }
  destruct (m2 w1) as [r2 w2 c2]. cbn [result world calls] in *.
  destruct r2 as [[]|e].
  - right. exists (c1 ++ c2). rewrite call_add_index_struct_run.
    cbn. rewrite Hx2, Hx1, app_assoc.
    split_and!; [done|by apply Forall_app|done|done].
  - left. cbn. split_and!; [done|by apply Forall_app|congruence].
Qed.

(** *** The cleanup of a known document *)

Section Cleanup.
Hypothesis store_delete_succeeds : forall s i, (vs_delete s i).1 = Ok tt.

Lemma cleanup_one_run self x w :
  is_Some (heap w !! _vector_store self) ->
  (is_delete (index_struct w) x).1 = Ok tt ->
  exists h,
    stores_text <$> h = stores_text <$> heap w
    /\ cleanup_one self x w
       = mkOutcome (Ok tt)
           (mkWorld h (storage_context w) (is_delete (index_struct w) x).2)
           (node_cleanup self x).
Proof using store_delete_succeeds.
  intros [s Hs] Hx. unfold cleanup_one, node_cleanup.
  rewrite bind_unfold, call_index_delete_run, Hx.
  cbn [result world calls]. rewrite call_delete_run. cbn [heap].
  rewrite Hs, store_delete_succeeds.
  exists (<[_vector_store self := (vs_delete s x).2]> (heap w)).
  split; [|done].
  eapply flags_insert; [done|]. apply stores_text_delete.
Qed.

Lemma cleanup_loop_run self (ids : list string) w :
  is_Some (heap w !! _vector_store self) ->
  removable (index_struct w) ids ->
  exists h,
    stores_text <$> h = stores_text <$> heap w
    /\ for_each ids (cleanup_one self) w
       = mkOutcome (Ok tt)
           (mkWorld h (storage_context w)
                    (unregistered (index_struct w) ids))
           (concat (node_cleanup self <$> ids)).
Proof using store_delete_succeeds.
  revert w. induction ids as [|x rest IH]; intros w Hprim Hrem.
  - exists (heap w). split; [done|]. by destruct w.
  - destruct Hrem as [Hx Hrest].
    destruct (cleanup_one_run self x w Hprim Hx) as (h1 & Hf1 & Hrun1).
    cbn [for_each]. rewrite bind_unfold, Hrun1. cbn [result world calls].
    destruct (IH (mkWorld h1 (storage_context w)
                          (is_delete (index_struct w) x).2))
      as (h & Hf & Hrun).
    { eapply flags_is_Some; [exact Hf1|done]. }
    { done. }
    exists h. split; [by rewrite Hf|]. rewrite Hrun. done.
Qed.

(** A pass in which the index structure accepts every removal. *)
Lemma delete_from_store_known self id info l w :
  ds_get_ref_doc_info (docstore (storage_context w)) id = Some info ->
  cleanup_active self w = true ->
  is_Some (heap w !! l) ->
  is_Some (heap w !! _vector_store self) ->
  removable (index_struct w) (node_ids info) ->
  exists h,
    stores_text <$> h = stores_text <$> heap w
    /\ delete_from_store self id l w
       = mkOutcome (Ok tt)
           (mkWorld h (storage_context w)
                    (unregistered (index_struct w) (node_ids info)))
           (full_pass self id info l).
Proof using store_delete_succeeds.
  intros Hinfo Hgate [s Hl] Hprim Hrem. unfold delete_from_store, full_pass.
  rewrite bind_unfold, call_delete_run, Hl, store_delete_succeeds.
  cbn [result world calls].
  set (w1 := with_heap _ w).
  assert (Hf1 : stores_text <$> heap w1 = stores_text <$> heap w).
  { eapply flags_insert; [done|]. apply stores_text_delete. }
  assert (Hprim1 : is_Some (heap w1 !! _vector_store self))
    by (eapply flags_is_Some; [exact Hf1|done]).
  rewrite bind_unfold, cleanup_gate_run by done.
  cbn [result world calls].
  assert (Hca : cleanup_active self w1 = cleanup_active self w)
    by apply (flags_cleanup_active self w _ Hf1).
  rewrite Hca, Hgate.
  rewrite bind_unfold, call_get_ref_doc_info_run.
  cbn [result world calls]. change (storage_context w1)
    with (storage_context w). rewrite Hinfo.
  destruct (cleanup_loop_run self (node_ids info) w1 Hprim1 Hrem)
    as (h & Hf & Hrun).
  exists h. split; [by rewrite Hf|]. rewrite Hrun. done.
Qed.

(** A pass in which the index structure refuses the first removal. *)
Lemma delete_from_store_refused self id info l w x xs e :
  ds_get_ref_doc_info (docstore (storage_context w)) id = Some info ->
  node_ids info = x :: xs ->
  cleanup_active self w = true ->
  is_Some (heap w !! l) ->
  is_Some (heap w !! _vector_store self) ->
  (is_delete (index_struct w) x).1 = Raise e ->
  exists h,
    delete_from_store self id l w
    = mkOutcome (Raise e)
        (mkWorld h (storage_context w) (is_delete (index_struct w) x).2)
        [CallDelete l id; CallGetRefDocInfo id; CallIndexDelete x].
Proof using store_delete_succeeds.
  intros Hinfo Hids Hgate [s Hl] Hprim Hx. unfold delete_from_store.
  rewrite bind_unfold, call_delete_run, Hl, store_delete_succeeds.
  cbn [result world calls].
  set (w1 := with_heap _ w).
  assert (Hf1 : stores_text <$> heap w1 = stores_text <$> heap w).
  { eapply flags_insert; [done|]. apply stores_text_delete. }
  assert (Hprim1 : is_Some (heap w1 !! _vector_store self))
    by (eapply flags_is_Some; [exact Hf1|done]).
  rewrite bind_unfold, cleanup_gate_run by done.
  cbn [result world calls].
  assert (Hca : cleanup_active self w1 = cleanup_active self w)
    by apply (flags_cleanup_active self w _ Hf1).
  rewrite Hca, Hgate.
  rewrite bind_unfold, call_get_ref_doc_info_run.
  cbn [result world calls]. change (storage_context w1)
    with (storage_context w). rewrite Hinfo, Hids.
  cbn [for_each]. unfold cleanup_one.
  rewrite !bind_unfold, call_index_delete_run.
  change (index_struct w1) with (index_struct w). rewrite Hx.
  exists (heap w1). done.
Qed.

End Cleanup.

(** X12: the cleanup is part of the loop over the registered stores,
    so the pass for the second store repeats it.  When the gate of
    the cleanup is open, the document store knows the logical
    document, the stores accept every delete and the index structure
    accepts the removal of the nodes of the document, the pass for
    the first store deletes the document from that store, looks it up
    and removes every one of its nodes from the index structure and
    from the primary store.  The pass for the second store deletes
    the document from that store, makes the same lookup, since the
    document store is only updated after the loop, and asks the index
    structure to remove the first node again.  With an index
    structure that refuses to remove what it has already removed, the
    deletion ends there with that exception: the document store and
    the index store are never reached and are left as they were. *)
Theorem second_pass_repeats_the_cleanup (self : Self) (id : string)
    (delete_from_docstore : bool) (w : World) (info : RefDocInfo)
    (ns1 ns2 : string) (l1 l2 : nat) (rest : list (string * nat))
    (x : string) (xs : list string) (e : Exn) :
  registry w = (ns1, l1) :: (ns2, l2) :: rest ->
  ds_get_ref_doc_info (docstore (storage_context w)) id = Some info ->
  node_ids info = x :: xs ->
  cleanup_active self w = true ->
  (forall s i, (vs_delete s i).1 = Ok tt) ->
  removable (index_struct w) (node_ids info) ->
  (is_delete (unregistered (index_struct w) (node_ids info)) x).1
    = Raise e ->
  is_Some (heap w !! l1) ->
  is_Some (heap w !! l2) ->
  is_Some (heap w !! _vector_store self) ->
  let o := delete_ref_doc self id delete_from_docstore w in
  result o = Raise e
  /\ calls o
     = [CallDelete l1 id; CallGetRefDocInfo id]
       ++ concat ((fun i => [CallIndexDelete i;
                             CallDelete (_vector_store self) i])
                    <$> node_ids info)
       ++ [CallDelete l2 id; CallGetRefDocInfo id; CallIndexDelete x]
  /\ index_struct (world o)
     = (is_delete (unregistered (index_struct w) (node_ids info)) x).2
  /\ storage_context (world o) = storage_context w.
Proof.
  intros Hreg Hinfo Hids Hgate Hvs Hrem Hx Hl1 Hl2 Hprim. cbn zeta.
  rewrite delete_ref_doc_shape, Hreg. cbn [map snd for_each].
  destruct (delete_from_store_known Hvs self id info l1 w
              Hinfo Hgate Hl1 Hprim Hrem) as (h1 & Hf1 & Hrun1).
  set (w1 := mkWorld h1 (storage_context w)
                     (unregistered (index_struct w) (node_ids info)))
    in Hrun1.
  destruct (delete_from_store_refused Hvs self id info l2 w1 x xs e)
    as (h2 & Hrun2); try done.
  { rewrite <- Hgate.
    apply (flags_cleanup_active self
             (mkWorld (heap w) (storage_context w)
                      (unregistered (index_struct w) (node_ids info)))
             h1 Hf1). }
  { eapply flags_is_Some; [exact Hf1|done]. }
  { eapply flags_is_Some; [exact Hf1|done]. }
  rewrite !bind_unfold, Hrun1. cbn [result world calls].
  rewrite Hrun2. unfold prepend. cbn [result world calls].
  unfold full_pass, node_cleanup.
  split_and!; try done.
Qed.

(** *** The index structure and the gate of the cleanup *)

Lemma delete_from_store_quiet self id l w :
  Forall (fun c => is_cleanup_call c = false)
         (calls (delete_from_store self id l w)) ->
  index_struct (world (delete_from_store self id l w)) = index_struct w.
Proof.
  unfold delete_from_store. rewrite bind_unfold.
  destruct (call_delete_frame l id) as (_ & Hi & _). specialize (Hi w).
  destruct (call_delete l id w) as [r1 w1 c1]. cbn [result world calls] in *.
  destruct r1 as [[]|e]; [|done].
  unfold prepend. cbn [result world calls]. rewrite bind_unfold.
  destruct (cleanup_gate_frame self w1) as [Hw Hc].
  destruct (cleanup_gate self w1) as [rg wg cg].
  cbn [result world calls] in *. subst wg cg.
  destruct rg as [[|]|e]; [|done..].
  unfold prepend. cbn [result world calls app].
  rewrite bind_unfold, call_get_ref_doc_info_run. cbn [result world calls].
  unfold prepend. cbn [calls app].
  intros [_ HF]%Forall_app. by apply Forall_cons in HF as [? _].
Qed.

Lemma delete_loop_quiet self id (ls : list nat) w :
  Forall (fun c => is_cleanup_call c = false)
         (calls (for_each ls (delete_from_store self id) w)) ->
  index_struct (world (for_each ls (delete_from_store self id) w))
  = index_struct w.
Proof.
  revert w. induction ls as [|l rest IH]; intros w; [done|].
  cbn [for_each]. rewrite bind_unfold.
  pose proof (delete_from_store_quiet self id l w) as Hq.
  destruct (delete_from_store self id l w) as [r1 w1 c1].
  cbn [result world calls] in *.
  destruct r1 as [[]|e]; [|done].
  unfold prepend. cbn [world calls].
  intros [H1 H2]%Forall_app. rewrite IH by done. by apply Hq.
Qed.

(** X13: a deletion changes the index structure through the cleanup only:
    when the override is off and the primary store does not retain
    text, which is when insertions mirror, a deletion makes no lookup
    in the reverse index and removes no node, and the index structure
    is left as it was, whatever the document store knows about the
    logical document. *)
Theorem delete_without_override_keeps_mirrored_nodes (self : Self)
    (id : string) (delete_from_docstore : bool) (w : World)
    (s : VectorStore) :
  _store_nodes_override self = false ->
  heap w !! _vector_store self = Some s ->
  stores_text s = false ->
  let o := delete_ref_doc self id delete_from_docstore w in
  mirroring self w = true
  /\ Forall (fun c => is_cleanup_call c = false) (calls o)
  /\ index_struct (world o) = index_struct w.
Proof.
  intros Hov Hs Hst. cbn zeta.
  assert (Hoff : cleanup_active self w = false).
  { unfold cleanup_active. by rewrite Hov, Hs, Hst. }
  destruct (delete_with_gate_closed self id delete_from_docstore w Hoff)
    as [Hm Hc]; [by eexists|].
  split_and!; [done..|].
  revert Hc. rewrite delete_ref_doc_shape, bind_unfold.
  pose proof (delete_loop_quiet self id (map snd (registry w)) w) as Hq.
  destruct (for_each _ _ w) as [r1 w1 c1]. cbn [result world calls] in *.
  destruct r1 as [[]|e]; [|done].
  unfold prepend. cbn [world calls].
  intros [H1 _]%Forall_app. rewrite <- Hq by done.
  destruct (call_delete_ref_doc_frame id false) as (_ & _ & _ & Hdi & _).
  destruct call_add_index_struct_frame as (_ & _ & _ & Hai & _).
  apply (keeps_bind index_struct); [|done].
  destruct delete_from_docstore; [done|apply keeps_ret].
Qed.

(** *** Construction *)

Lemma dict_get_set_eq {V} (d : list (string * V)) (k : string) (v : V) :
  dict_get (dict_set d k v) k = Some v.
Proof.
  induction d as [|[k0 v0] rest IH]; cbn.
  - by rewrite String.eqb_refl.
  - destruct (String.eqb k0 k) eqn:E; cbn; by rewrite E.
Qed.

Lemma dict_get_set_ne {V} (d : list (string * V)) (k k' : string) (v : V) :
  k <> k' -> dict_get (dict_set d k v) k' = dict_get d k'.
Proof.
  intros Hne%String.eqb_neq. induction d as [|[k0 v0] rest IH]; cbn.
  - by rewrite Hne.
  - destruct (String.eqb k0 k) eqn:E; cbn.
    + apply String.eqb_eq in E as ->. by rewrite Hne.
    + by rewrite IH.
Qed.

(** X14: once the image embedding model is accepted, the constructor works
    on the storage context it was given and enters the constructor of
    the base class with a store registered under the image namespace,
    which it passes on as the image store of the index: the store
    given as [image_vector_store] when there is one, replacing any
    store registered there before; otherwise the store already
    registered there; otherwise a new simple store, created for the
    purpose.  The other namespaces, the document store and the index
    store of the context are as the caller gave them. *)
Theorem init_registers_the_image_store
    (VectorStoreIndex__init__ :
       EmbedModel -> nat -> option (list Node) -> option IndexStruct ->
       option EmbedModel -> bool -> bool -> bool -> M Self)
    (nodes : option (list Node)) (given_struct : option IndexStruct)
    (service_context : option EmbedModel) (context : StorageContext)
    (use_async store_nodes_override show_progress : bool)
    (given_store : option nat) (image_embed_model : EmbedType)
    (w : World) (model : EmbedModel) :
  resolve_embed_model image_embed_model = Ok model ->
  isinstance_MultiModalEmbedding model = true ->
  exists image_store w',
    __init__ VectorStoreIndex__init__ nodes given_struct service_context
             (Some context) use_async store_nodes_override show_progress
             given_store image_embed_model w
    = VectorStoreIndex__init__ model image_store nodes given_struct
        service_context show_progress use_async store_nodes_override w'
    /\ dict_get (registry w') image_namespace = Some image_store
    /\ (forall namespace,
          namespace <> image_namespace ->
          dict_get (registry w') namespace
          = dict_get (vector_stores context) namespace)
    /\ docstore (storage_context w') = docstore context
    /\ index_store (storage_context w') = index_store context
    /\ index_struct w' = index_struct w
    /\ match given_store, dict_get (vector_stores context) image_namespace
       with
       | Some l, _ => image_store = l /\ heap w' = heap w
       | None, Some l => image_store = l /\ heap w' = heap w
       | None, None =>
           image_store = length (heap w)
           /\ heap w' = heap w ++ [SimpleVectorStore]
       end.
Proof.
  intros Hres Hmm.
  unfold __init__. rewrite bind_unfold, Hres.
  cbn [lift ret result world calls].
  rewrite bind_unfold. unfold assert at 1 2 3. rewrite Hmm.
  cbn [ret result world calls prepend app].
  destruct given_store as [l|].
  - exists l,
      (mkWorld (heap w)
         (mkStorageContext
            (dict_set (vector_stores context) image_namespace l)
            (docstore context) (index_store context))
         (index_struct w)).
    split.
    + unfold add_vector_store, get_vector_store, get_vector_stores,
        put_storage_context.
      repeat (rewrite ?bind_unfold, ?dict_get_set_eq;
              cbn [get_world ret result world calls prepend app
                   storage_context vector_stores docstore index_store
                   heap index_struct]).
      match goal with
      | |- context [VectorStoreIndex__init__ ?a ?b ?c ?d ?e ?f ?g ?h ?x] =>
          by destruct (VectorStoreIndex__init__ a b c d e f g h x)
      end.
    + unfold registry. cbn. rewrite dict_get_set_eq.
      split_and!; try done.
      intros ns Hns. by apply dict_get_set_ne.
  - destruct (dict_get (vector_stores context) image_namespace)
      as [l|] eqn:Hreg.
    + exists l, (mkWorld (heap w) context (index_struct w)). split.
      * unfold get_vector_store, get_vector_stores, put_storage_context.
        repeat (rewrite ?bind_unfold, ?Hreg;
                cbn [get_world ret result world calls prepend app
                     storage_context vector_stores docstore index_store
                     heap index_struct]).
        match goal with
        | |- context [VectorStoreIndex__init__ ?a ?b ?c ?d ?e ?f ?g ?h ?x]
          => by destruct (VectorStoreIndex__init__ a b c d e f g h x)
        end.
      * unfold registry. cbn. by rewrite Hreg.
    + exists (length (heap w)),
        (mkWorld (heap w ++ [SimpleVectorStore])
           (mkStorageContext
              (dict_set (vector_stores context) image_namespace
                        (length (heap w)))
              (docstore context) (index_store context))
           (index_struct w)).
      split.
      * unfold add_vector_store, alloc, get_vector_store,
          get_vector_stores, put_storage_context, put_heap.
        repeat (rewrite ?bind_unfold, ?Hreg, ?dict_get_set_eq;
                cbn [get_world ret result world calls prepend app
                     storage_context vector_stores docstore index_store
                     heap index_struct]).
        match goal with
        | |- context [VectorStoreIndex__init__ ?a ?b ?c ?d ?e ?f ?g ?h ?x]
          => by destruct (VectorStoreIndex__init__ a b c d e f g h x)
        end.
      * unfold registry. cbn. rewrite dict_get_set_eq.
        split_and!; try done.
        intros ns Hns. by apply dict_get_set_ne.
Qed.

End Further.

(** ** Runs on the concrete collaborators *)

(** C1: on the concrete collaborators, with a primary store that does
    not retain text and no override, mirroring is active and inserting
    the node [a] of the logical document [doc1] registers it in the
    index structure and in the reverse index of the document store;
    deleting [doc1] then asks both stores and the document store to
    delete it but makes no lookup in the reverse index and no
    per-node removal, so the index structure still holds [a].  With a
    primary store that retains text and no override, mirroring is not
    active, and yet the deletion looks the document up and removes
    its node from the index structure and from the primary store; the
    pass for the second registered store makes the same lookup and
    asks the index structure, which no longer holds [a], to remove it
    again, and the deletion ends there with the [KeyError] of the
    index structure. *)
Theorem delete_gate_is_the_opposite_of_mirroring :
  let self := Sample.index false in
  let inserted :=
    _add_nodes_to_index self [Sample.hello] false [] (Sample.start false) in
  let deleted := delete_ref_doc self "doc1" true (world inserted) in
  let deleted' := delete_ref_doc self "doc1" true Sample.populated in
  (mirroring self (Sample.start false) = true
   /\ result inserted = Ok tt
   /\ index_struct (world inserted) = [("a", "a")]
   /\ ds_get_ref_doc_info (docstore (storage_context (world inserted)))
                          "doc1"
      = Some (mkRefDocInfo ["a"])
   /\ result deleted = Ok tt
   /\ calls deleted
      = [CallDelete 0 "doc1"; CallDelete 1 "doc1";
         CallDeleteRefDoc "doc1" false; CallAddIndexStruct]
   /\ index_struct (world deleted) = [("a", "a")])
  /\ (mirroring self Sample.populated = false
      /\ index_struct Sample.populated = [("a", "a")]
      /\ result deleted' = Raise (KeyError "a")
      /\ calls deleted'
         = [CallDelete 0 "doc1"; CallGetRefDocInfo "doc1";
            CallIndexDelete "a"; CallDelete 0 "a";
            CallDelete 1 "doc1"; CallGetRefDocInfo "doc1";
            CallIndexDelete "a"]
      /\ index_struct (world deleted') = []).
Proof. vm_compute. repeat split. Qed.

(** C4, as stated, fails: with an image embedder out of service the
    insertion of a plain node and a captioned image raises after the
    primary store has taken both text copies. *)
Lemma failed_image_embedding_keeps_text_added :
  ~ all_or_nothing (Sample.start false)
      (_add_nodes_to_index Sample.index_without_images
         [Sample.hello; Sample.cat] false [] (Sample.start false)).
Proof. unfold all_or_nothing. vm_compute. by intros [?|?]. Qed.

(** The captioned image [b], inserted with the plain node [a], is
    stored in both vector stores. *)
Lemma captioned_image_reaches_both_stores_witness :
  stored_in_both Blocking (Sample.index false)
    [Sample.hello; Sample.cat] false [] (Sample.start false) Sample.cat
    (_add_nodes_to_index (Sample.index false) [Sample.hello; Sample.cat]
                         false [] (Sample.start false)).
Proof.
  assert (Hne : [Sample.hello; Sample.cat] <> []) by discriminate.
  destruct (captioned_image_reaches_both_stores Blocking
              (Sample.index false) [Sample.hello; Sample.cat] false []
              (Sample.start false) Hne) as (_ & _ & H).
  destruct (H Sample.cat) as (_ & _ & Hboth).
  - apply list_elem_of_further, list_elem_of_here.
  - reflexivity.
  - reflexivity.
  - apply Hboth. reflexivity.
Defined.


(** With a text embedder out of service nothing is touched; with an
    image embedder out of service the primary store has taken the
    text copies and the image store nothing. *)
Lemma embedding_failure_stops_before_its_add_witness :
  world (_add_nodes_to_index Sample.index_without_text
           [Sample.hello; Sample.cat] false [] (Sample.start false))
  = Sample.start false
  /\ map (fun s => length (Sample.rows s))
         (heap (world (_add_nodes_to_index Sample.index_without_images
                         [Sample.hello; Sample.cat] false []
                         (Sample.start false))))
     = [2; 0].
Proof.
  assert (Hne : [Sample.hello; Sample.cat] <> []) by discriminate.
  split.
  - destruct (embedding_failure_stops_before_its_add Blocking
                Sample.index_without_text [Sample.hello; Sample.cat]
                false [] (Sample.start false)
                (ExternalError "embedding failed") Hne) as [Htext _].
    change (_add_nodes_to_index Sample.index_without_text)
      with (insert_by Blocking Sample.index_without_text).
    rewrite Htext; reflexivity.
  - destruct (embedding_failure_stops_before_its_add Blocking
                Sample.index_without_images [Sample.hello; Sample.cat]
                false [] (Sample.start false)
                (ExternalError "embedding failed") Hne) as [_ Himage].
    change (_add_nodes_to_index Sample.index_without_images)
      with (insert_by Blocking Sample.index_without_images).
    rewrite (Himage
               [set_embedding (Some Sample.text_vector) Sample.hello;
                set_embedding (Some Sample.text_vector) Sample.cat]
               ["a"; "b"] 0 (Sample.mkStore false []));
      reflexivity.
Defined.

(** The model named ["ada"] is not a multi-modal one, and the primary
    store of [Sample.start false] does not retain text. *)
Lemma construction_rejects_bad_configuration_witness :
  result (__init__ Sample.base_init None None None None false false false
                   None (inl "ada") (Sample.start false))
  = Raise AssertionError
  /\ result (from_vector_store Sample.base_init 0 None None (inl "clip")
                               (Sample.start false))
     = Raise (ValueError
         "Cannot initialize from a vector store that does not store text.").
Proof.
  destruct (construction_rejects_bad_configuration Sample.base_init
              None None None None false false false None (inl "ada") 0
              (Sample.start false)) as [Hinit _].
  destruct (construction_rejects_bad_configuration Sample.base_init
              None None None None false false false None (inl "clip") 0
              (Sample.start false)) as [_ Hfrom].
  split.
  - erewrite Hinit; reflexivity.
  - erewrite Hfrom; reflexivity.
Defined.

(** The awaited collaborators of the sample are the blocking ones. *)
Lemma awaited_insert_agrees_with_blocking_witness :
  world (_async_add_nodes_to_index (Sample.index false)
           [Sample.hello; Sample.cat; Sample.dog] false []
           (Sample.start false))
  = world (_add_nodes_to_index (Sample.index false)
             [Sample.hello; Sample.cat; Sample.dog] false []
             (Sample.start false)).
Proof.
  apply (awaited_insert_agrees_with_blocking (Sample.index false)
           [Sample.hello; Sample.cat; Sample.dog] false []
           (Sample.start false)).
  - intros s ns kw. reflexivity.
  - intros ns m sp. reflexivity.
  - intros ns m sp. reflexivity.
Defined.

(** Deleting a logical document that the sample document store has
    never seen. *)
Lemma delete_of_unknown_document_succeeds_witness :
  result (delete_ref_doc (Sample.index false) "nowhere" true
                         Sample.populated)
  = Ok tt.
Proof.
  apply (delete_of_unknown_document_succeeds (Sample.index false)
           "nowhere" true Sample.populated).
  - reflexivity.
  - intros s. reflexivity.
  - intros d Hd. unfold ds_delete_ref_doc, ds_get_ref_doc_info in *.
    cbn in *. unfold Sample.delete_ref_doc, Sample.get_ref_doc_info in *.
    destruct (dict_get (Sample.ref_doc_info d) "nowhere");
      [discriminate|reflexivity].
  - intros x. reflexivity.
  - intros l Hl. cbn in Hl.
    apply elem_of_cons in Hl as [->|Hl]; [by eexists|].
    apply list_elem_of_singleton in Hl as ->. by eexists.
  - by eexists.
Defined.

(** The plain node without text [e] next to the plain node [a]. *)
Lemma plain_node_without_text_is_dropped_witness :
  _add_nodes_to_index (Sample.index false) [Sample.hello; Sample.blank]
                      false [] (Sample.start false)
  = _add_nodes_to_index (Sample.index false) [Sample.hello]
                        false [] (Sample.start false).
Proof.
  destruct (plain_node_without_text_is_dropped Blocking (Sample.index false)
              [Sample.hello; Sample.blank] false [] (Sample.start false)
              Sample.blank) as (_ & _ & _ & Hsame).
  - reflexivity.
  - reflexivity.
  - apply Hsame. discriminate.
Defined.

(** The text embedding of [a] and [b] returns their two copies. *)
Lemma embedding_returns_one_copy_per_node_witness :
  strip <$> [set_embedding (Some Sample.text_vector) Sample.hello;
             set_embedding (Some Sample.text_vector) Sample.cat]
  = strip <$> [Sample.hello; Sample.cat].
Proof.
  apply (embedding_returns_one_copy_per_node Blocking (Sample.index false)
           [Sample.hello; Sample.cat] false false (Sample.start false)
           [set_embedding (Some Sample.text_vector) Sample.hello;
            set_embedding (Some Sample.text_vector) Sample.cat]).
  reflexivity.
Defined.

(** The image embedder of [Faulty] has no vector for the image node
    without payload [f], which comes after [b]. *)
Lemma embedding_raises_key_error_at_first_missing_witness :
  result (@_get_node_with_embedding Faulty.backends Faulty.index
            [Sample.cat; Faulty.bare] false true (Faulty.start true true))
  = Raise (KeyError "f").
Proof.
  change (@_get_node_with_embedding Faulty.backends)
    with (@get_node_with_embedding_of Faulty.backends Blocking).
  change [Sample.cat; Faulty.bare] with ([Sample.cat] ++ [Faulty.bare]).
  rewrite (@embedding_raises_key_error_at_first_missing Faulty.backends
             Blocking Faulty.index [Sample.cat] [] Faulty.bare false true
             (Faulty.start true true)
             (list_to_map [("b"%string, Sample.image_vector)])).
  - reflexivity.
  - reflexivity.
  - constructor; [|constructor]. eexists. reflexivity.
  - reflexivity.
Defined.

(** A batch with the plain node [a] only: the image embedder and the
    image store are called all the same, with the empty list. *)
Lemma insert_calls_both_stores_once_witness :
  exists text_nodes rest,
    calls (_add_nodes_to_index (Sample.index false) [Sample.hello]
                               false [] (Sample.start false))
    = [CallEmbed Blocking false [Sample.hello];
       CallAdd Blocking 0 text_nodes [];
       CallEmbed Blocking true [];
       CallAdd Blocking 1 [] []] ++ rest.
Proof.
  destruct (insert_calls_both_stores_once Blocking (Sample.index false)
              [Sample.hello] false [] (Sample.start false))
    as (primary & secondary & tn & inn & rest
        & Hp & Hs & Hcalls & _ & Hi & _).
  - discriminate.
  - reflexivity.
  - injection Hp as <-. injection Hs as <-.
    apply fmap_nil_inv in Hi as ->.
    exists tn, rest. exact Hcalls.
Defined.

(** A primary store that is read-only, then an image store that is
    read-only. *)
Lemma add_failure_stops_insertion_witness :
  @_add_nodes_to_index Faulty.backends Faulty.index [Sample.hello]
                       false [] (Faulty.start false true)
  = mkOutcome (Raise (ExternalError "store is read-only"))
              (Faulty.start false true)
              [CallEmbed Blocking false [Sample.hello];
               CallAdd Blocking 0
                 [set_embedding (Some Sample.text_vector) Sample.hello] []]
  /\ index_struct
       (world (@_add_nodes_to_index Faulty.backends Faulty.index
                 [Sample.hello; Sample.cat] false []
                 (Faulty.start true false)))
     = [].
Proof.
  split.
  - destruct (@add_failure_stops_insertion Faulty.backends Blocking
                Faulty.index [Sample.hello] false []
                (Faulty.start false true)
                (ExternalError "store is read-only")
                [set_embedding (Some Sample.text_vector) Sample.hello]
                0 (Faulty.mkStore false false []))
      as [Hprimary _]; [discriminate|reflexivity..|].
    change (@_add_nodes_to_index Faulty.backends)
      with (@insert_by Faulty.backends Blocking).
    rewrite Hprimary; reflexivity.
  - destruct (@add_failure_stops_insertion Faulty.backends Blocking
                Faulty.index [Sample.hello; Sample.cat] false []
                (Faulty.start true false)
                (ExternalError "store is read-only")
                [set_embedding (Some Sample.text_vector) Sample.hello;
                 set_embedding (Some Sample.text_vector) Sample.cat]
                0 (Faulty.mkStore false true []))
      as [_ Himage]; [discriminate|reflexivity..|].
    change (@_add_nodes_to_index Faulty.backends)
      with (@insert_by Faulty.backends Blocking).
    rewrite (Himage ["a"; "b"]%string
               [set_embedding (Some Sample.image_vector) Sample.cat]
               1 (Faulty.mkStore true false []));
      reflexivity.
Defined.

(** A registry without the default namespace, then one without the
    image namespace. *)
Lemma missing_namespace_raises_key_error_witness :
  result (_add_nodes_to_index (Sample.index false) [Sample.hello]
                              false [] Sample.without_default)
  = Raise (KeyError "default")
  /\ result (_add_nodes_to_index (Sample.index false) [Sample.hello]
                                 false [] Sample.without_image)
     = Raise (KeyError "image").
Proof.
  split.
  - destruct (missing_namespace_raises_key_error Blocking
                (Sample.index false) [Sample.hello] false []
                Sample.without_default
                [set_embedding (Some Sample.text_vector) Sample.hello])
      as [Hdefault _]; [discriminate|reflexivity|].
    change (_add_nodes_to_index (Sample.index false))
      with (insert_by Blocking (Sample.index false)).
    rewrite Hdefault; reflexivity.
  - destruct (missing_namespace_raises_key_error Blocking
                (Sample.index false) [Sample.hello] false []
                Sample.without_image
                [set_embedding (Some Sample.text_vector) Sample.hello])
      as [_ Himage]; [discriminate|reflexivity|].
    change (_add_nodes_to_index (Sample.index false))
      with (insert_by Blocking (Sample.index false)).
    rewrite (Himage 0 (Sample.mkStore false []) ["a"%string] []);
      reflexivity.
Defined.

(** The captioned image [b], inserted with [a] under mirroring, is
    registered by two different calls. *)
Lemma captioned_image_is_registered_twice_witness :
  exists p q id_text id_image stripped,
    p < q
    /\ is_copy_with None Sample.cat stripped
    /\ calls (_add_nodes_to_index (Sample.index false)
                [Sample.hello; Sample.cat] false [] (Sample.start false))
         !! p = Some (CallAddNode stripped id_text)
    /\ calls (_add_nodes_to_index (Sample.index false)
                [Sample.hello; Sample.cat] false [] (Sample.start false))
         !! q = Some (CallAddNode stripped id_image).
Proof.
  destruct (captioned_image_is_registered_twice Blocking
              (Sample.index false) [Sample.hello; Sample.cat] false []
              (Sample.start false) Sample.cat)
    as (tn & tids & inn & iids & primary & secondary & s0 & s1 & mt & mi
        & i & j & id_text & id_image & stripped
        & _ & _ & _ & _ & _ & _ & _ & _ & _ & _ & _ & _ & _ & _ & _ & _
        & Hcopy & Hlt & Htext & Himage).
  - intros s ns kw ids [= <-]. apply List.length_map.
  - reflexivity.
  - apply list_elem_of_further, list_elem_of_here.
  - reflexivity.
  - reflexivity.
  - reflexivity.
  - exists (4 + 2 * i), (4 + 2 * (length tn + j)), id_text, id_image,
      stripped.
    split; [lia|]. split; [exact Hcopy|].
    split; [exact Htext|exact Himage].
Defined.

(** One store under both namespaces takes the text copy of [b] and
    then its image copy. *)
Lemma shared_store_takes_both_partitions_witness :
  heap (world (_add_nodes_to_index (Sample.index false) [Sample.cat]
                                   false [] Sample.shared))
  = [Sample.mkStore false
       [set_embedding (Some Sample.text_vector) Sample.cat;
        set_embedding (Some Sample.image_vector) Sample.cat]].
Proof.
  destruct (shared_store_takes_both_partitions Blocking
              (Sample.index false) [Sample.cat] false [] Sample.shared
              0 (Sample.mkStore false []))
    as (tn & inn & Et & Ei & Hheap).
  - discriminate.
  - reflexivity.
  - reflexivity.
  - reflexivity.
  - reflexivity.
  - change (_add_nodes_to_index (Sample.index false))
      with (insert_by Blocking (Sample.index false)).
    rewrite Hheap. injection Et as <-. injection Ei as <-. reflexivity.
Defined.

(** The populated sample: both passes find [doc1]; the index
    structure gives up [a] in the first and refuses in the second. *)
Lemma second_pass_repeats_the_cleanup_witness :
  let o := delete_ref_doc (Sample.index false) "doc1" true
                          Sample.populated in
  result o = Raise (KeyError "a")
  /\ calls o
     = [CallDelete 0 "doc1"; CallGetRefDocInfo "doc1";
        CallIndexDelete "a"; CallDelete 0 "a";
        CallDelete 1 "doc1"; CallGetRefDocInfo "doc1";
        CallIndexDelete "a"]
  /\ index_struct (world o) = []
  /\ storage_context (world o) = storage_context Sample.populated.
Proof.
  apply (second_pass_repeats_the_cleanup (Sample.index false) "doc1" true
           Sample.populated (mkRefDocInfo ["a"%string])
           DEFAULT_VECTOR_STORE image_namespace 0 1 [] "a" []
           (KeyError "a")).
  - reflexivity.
  - reflexivity.
  - reflexivity.
  - reflexivity.
  - reflexivity.
  - split; [reflexivity|exact I].
  - reflexivity.
  - by eexists.
  - by eexists.
  - by eexists.
Defined.

(** After the insertion of [a] with a primary store that does not
    retain text, the deletion of its logical document leaves [a] in
    the index structure. *)
Lemma delete_without_override_keeps_mirrored_nodes_witness :
  index_struct
    (world (delete_ref_doc (Sample.index false) "doc1" true
              (world (_add_nodes_to_index (Sample.index false)
                        [Sample.hello] false [] (Sample.start false)))))
  = [("a", "a")]%string.
Proof.
  destruct (delete_without_override_keeps_mirrored_nodes
              (Sample.index false) "doc1" true
              (world (_add_nodes_to_index (Sample.index false)
                        [Sample.hello] false [] (Sample.start false)))
              (Sample.mkStore false
                 [set_embedding (Some Sample.text_vector) Sample.hello]))
    as (_ & _ & Hkept).
  - reflexivity.
  - reflexivity.
  - reflexivity.
  - rewrite Hkept. reflexivity.
Defined.

(** A caller that passes the primary store as image store: it replaces
    the store registered under the image namespace. *)
Lemma init_registers_the_image_store_witness :
  exists w',
    __init__ Sample.base_init None None None
             (Some (storage_context (Sample.start false)))
             false false false (Some 0) (inl "clip") (Sample.start false)
    = Sample.base_init (Sample.mkModel true true) 0 None None None
                       false false false w'
    /\ dict_get (registry w') image_namespace = Some 0.
Proof.
  destruct (init_registers_the_image_store Sample.base_init None None None
              (storage_context (Sample.start false)) false false false
              (Some 0) (inl "clip") (Sample.start false)
              (Sample.mkModel true true))
    as (image_store & w' & Hrun & Hreg & _ & _ & _ & _ & [-> _]).
  - reflexivity.
  - reflexivity.
  - exists w'. split; [exact Hrun|exact Hreg].
Defined.
